(** * DDoSTestConfig: the load-generation component

    A shallow embedding of [src/components/DDoSTestConfig.tsx]: header
    parsing ([parseHeaders]), the request executor ([makeRequest]), the batch
    loop ([runTest]) and the stop handler ([stopTest]), followed by the
    properties of the specification that were checked against them.

    Conventions of the embedding.
    - A JavaScript string is a [string]; each character stands for one code
      unit in the range 0..255.
    - A JavaScript number that holds a count (requests, batches) is a [Z];
      a number that holds a ratio or a duration (progress, elapsed
      milliseconds, the average) is an exact rational [Q].  For counts in
      the safe-integer range the integer operations of the source are exact
      in IEEE doubles; the progress and the average of the source are the
      doubles nearest to the rationals computed here.
    - A plain object used as a dictionary ([Record<string, string>]) is a
      [gmap string string].
    - React state is a record [View]; a state setter replaces a field. *)

From Stdlib Require Import Ascii String ZArith QArith Qabs Qround Lia Sorted.
From stdpp Require Import gmap strings list fin_maps pretty.

Local Open Scope Z_scope.

(** ** JavaScript strings *)

Module Js.

(** [String.prototype.trim] removes WhiteSpace and LineTerminator code
    points; below 256 these are TAB, LF, VT, FF, CR, SPACE and NBSP. *)
Definition is_white (c : ascii) : bool :=
  let n := nat_of_ascii c in
  ((9 <=? n)%nat && (n <=? 13)%nat) || (n =? 32)%nat || (n =? 160)%nat.

Fixpoint trimStart (s : string) : string :=
  match s with
  | EmptyString => EmptyString
  | String c r => if is_white c then trimStart r else s
  end.

Fixpoint trimEnd (s : string) : string :=
  match s with
  | EmptyString => EmptyString
  | String c r =>
      match trimEnd r with
      | EmptyString => if is_white c then EmptyString else String c EmptyString
      | r' => String c r'
      end
  end.

Definition trim (s : string) : string := trimEnd (trimStart s).

(** [s.split(sep)] for a one-character separator: every occurrence of the
    separator cuts; the result is never empty. *)
Fixpoint split (sep : ascii) (s : string) : list string :=
  match s with
  | EmptyString => [EmptyString]
  | String c r =>
      if Ascii.eqb c sep then EmptyString :: split sep r
      else match split sep r with
           | h :: t => String c h :: t
           | [] => [String c EmptyString]
           end
  end.

Fixpoint startsWith (p s : string) : bool :=
  match p, s with
  | EmptyString, _ => true
  | String a p', String b s' => Ascii.eqb a b && startsWith p' s'
  | String _ _, EmptyString => false
  end.

(** Truthiness of a string: only the empty string is falsy. *)
Definition truthy (s : string) : bool :=
  match s with EmptyString => false | _ => true end.

(** [obj[key] = value] on an object literal [{}] whose value is a string.
    The inherited accessor [__proto__] swallows a string, so that key
    never becomes an own property; every other key is created or
    overwritten. *)
Definition assign (key value : string) (obj : gmap string string)
  : gmap string string :=
  if String.eqb key "__proto__" then obj else <[key := value]> obj.

End Js.

(** ** Configuration and header parsing *)

Record TestConfig := {
  url : string;
  method : string;
  requestCount : Z;
  concurrency : Z;
  payload : string;
  authToken : string;
  headers : string
}.

Definition newline : ascii := ascii_of_nat 10.
Definition colon : ascii := ascii_of_nat 58.

(** The callback of [forEach] in [parseHeaders]:
    [const [key, value] = header.split(':').map(s => s.trim());
     if (key && value) headers[key] = value]. *)
Definition parseLine (acc : gmap string string) (header : string)
  : gmap string string :=
  let parts := map Js.trim (Js.split colon header) in
  let key := hd EmptyString parts in
  match nth_error parts 1 with
  | Some value =>
      if Js.truthy key && Js.truthy value then Js.assign key value acc else acc
  | None => acc (* [value] is [undefined], which is falsy *)
  end.

(** The first half of [parseHeaders]: the custom header lines. *)
Definition parseCustom (headersString : string) : gmap string string :=
  if Js.truthy (Js.trim headersString)
  then fold_left parseLine (Js.split newline headersString) ∅
  else ∅.

(** The value written under [Authorization]. *)
Definition bearer (token : string) : string :=
  if Js.startsWith "Bearer " token then token else "Bearer " +:+ token.

(** [parseHeaders(headersString)]; it reads [config.authToken]. *)
Definition parseHeaders (config : TestConfig) (headersString : string)
  : gmap string string :=
  let hs := parseCustom headersString in
  if Js.truthy (authToken config)
  then Js.assign "Authorization" (bearer (authToken config)) hs
  else hs.

(** ** The request executor *)

(** What [catch (error)] can receive: an [Error] instance with its message,
    or any other value. *)
Inductive Thrown :=
| ErrorObject (message : string)
| OtherValue.

(** How a promise settles. *)
Inductive Settled (A : Type) :=
| Fulfilled (value : A)
| Rejected (reason : Thrown).
Arguments Fulfilled {A} value.
Arguments Rejected {A} reason.

(** [try { body } catch (error) { handler }] around an awaited promise. *)
Definition try_catch {A : Type} (body : Settled A) (handler : Thrown -> Settled A)
  : Settled A :=
  match body with
  | Fulfilled a => Fulfilled a
  | Rejected e => handler e
  end.

(** One call of [fetch], as the network answers it: the two readings of
    [performance.now()] around it, and either a response with its status
    code or a rejection. *)
Record Exchange := {
  startedAt : Q;
  answer : Settled Z;
  settledAt : Q
}.

Record RequestInit := {
  init_method : string;
  init_headers : gmap string string;
  init_body : option string
}.

(** The object [makeRequest] resolves to: [status] is present on the first
    return, [error] on the second. *)
Record Outcome := {
  success : bool;
  status : option Z;
  error : option string;
  responseTime : Q
}.

(** [error instanceof Error ? error.message : 'Unknown error'] *)
Definition errorMessage (e : Thrown) : string :=
  match e with
  | ErrorObject m => m
  | OtherValue => "Unknown error"
  end.

(** [requestOptions] of [makeRequest]: the spread [...headers] comes after
    the literal [Content-Type], so a parsed header of that name wins. *)
Definition requestOptions (config : TestConfig) : RequestInit :=
  let hs := parseHeaders config (headers config) in
  {| init_method := method config;
     init_headers := hs ∪ {[ "Content-Type" := "application/json" ]};
     init_body :=
       if negb (String.eqb (method config) "GET") && Js.truthy (payload config)
       then Some (payload config) else None |}.

(** [makeRequest()], given how the network answers its [fetch]. *)
Definition makeRequest (config : TestConfig) (x : Exchange) : Settled Outcome :=
  let startTime := startedAt x in
  try_catch
    (match answer x with
     | Fulfilled code =>
         let endTime := settledAt x in
         Fulfilled {| success := true; status := Some code; error := None;
                      responseTime := endTime - startTime |}
     | Rejected e => Rejected e
     end)
    (fun e =>
       let endTime := settledAt x in
       Fulfilled {| success := false; status := None;
                    error := Some (errorMessage e);
                    responseTime := endTime - startTime |}).

(** ** Component state *)

Record TestResult := {
  totalRequests : Z;
  successfulRequests : Z;
  failedRequests : Z;
  averageResponseTime : Q;
  startTime : Z;
  endTime : option Z;
  isRunning : bool
}.

(** The three [useState] cells besides [config]. *)
Record View := {
  result : option TestResult;
  currentProgress : Q;
  logs : list string
}.

(** The points where [runTest] is suspended and a click can be handled:
    [await Promise.allSettled(...)] of a batch, and the 100 ms timer after
    it. *)
Inductive Suspension :=
| Settling (batch : Z)
| Pausing (batch : Z).

(** What the component does to the outside, and what the user does to it,
    in the order it happens. *)
Inductive Event :=
| Fetch (batch : Z) (index : nat) (target : string) (init : RequestInit)
| SetResult (r : TestResult)
| SetCurrentProgress (p : Q)
| StopPressed.

(** The surroundings of a run: the wall clock, the network, the user. *)
Record Env := {
  dateAt : nat -> Z;               (* the n-th [new Date()], in epoch ms *)
  toLocaleTimeString : Z -> string;
  exchangeOf : Z -> nat -> Exchange; (* request [index] of batch [batch] *)
  stopClicked : Suspension -> bool   (* does the user press Stop there? *)
}.

(** The view, the number of clock readings so far, and the events so far.
    [setResult(testResult)] stores a reference to the object that [runTest]
    keeps mutating, but every mutation is followed, in the same synchronous
    turn, by a [setResult] of the current contents; between turns the
    stored object and the value kept here agree. *)
Record Sys := {
  view : View;
  dates : nat;
  trace : list Event
}.

Definition withView (f : View -> View) (s : Sys) : Sys :=
  {| view := f (view s); dates := dates s; trace := trace s |}.

Definition emit (e : Event) (s : Sys) : Sys :=
  {| view := view s; dates := dates s; trace := trace s ++ [e] |}.

Definition setResult (r : TestResult) (s : Sys) : Sys :=
  emit (SetResult r)
    (withView (fun v => {| result := Some r;
                           currentProgress := currentProgress v;
                           logs := logs v |}) s).

Definition setCurrentProgress (p : Q) (s : Sys) : Sys :=
  emit (SetCurrentProgress p)
    (withView (fun v => {| result := result v;
                           currentProgress := p;
                           logs := logs v |}) s).

Definition setLogs (f : list string -> list string) (s : Sys) : Sys :=
  withView (fun v => {| result := result v;
                        currentProgress := currentProgress v;
                        logs := f (logs v) |}) s.

(** [{ ...r, isRunning: b }] *)
Definition withRunning (b : bool) (r : TestResult) : TestResult :=
  {| totalRequests := totalRequests r;
     successfulRequests := successfulRequests r;
     failedRequests := failedRequests r;
     averageResponseTime := averageResponseTime r;
     startTime := startTime r;
     endTime := endTime r;
     isRunning := b |}.

(** [x.toFixed(2)] on an exact rational: the nearest multiple of 1/100,
    the larger one on a tie, digits after the sign of [x]. *)
Definition toFixed2 (x : Q) : string :=
  let n := Qfloor (Qabs x * 100 + (1 # 2))%Q in
  (if Qlt_le_dec x 0 then "-" else "")
  +:+ pretty (n / 100) +:+ "."
  +:+ (if n mod 100 <? 10 then "0" else "") +:+ pretty (n mod 100).

(** [xs.reduce((sum, time) => sum + time, 0)] *)
Definition sumTimes (xs : list Q) : Q := fold_left Qplus xs 0%Q.

(** The variables of [runTest] that outlive a batch. *)
Record Locals := {
  testResult : TestResult;
  responseTimes : list Q
}.

(** The callback of [batchResults.forEach]. *)
Definition tally (l : Locals) (r : Settled Outcome) : Locals :=
  let t := testResult l in
  let bump (ok : bool) :=
    {| totalRequests := totalRequests t;
       successfulRequests := if ok then successfulRequests t + 1
                             else successfulRequests t;
       failedRequests := if ok then failedRequests t
                         else failedRequests t + 1;
       averageResponseTime := averageResponseTime t;
       startTime := startTime t;
       endTime := endTime t;
       isRunning := isRunning t |} in
  match r with
  | Fulfilled value =>
      {| testResult := bump (success value);
         responseTimes := responseTimes l ++ [responseTime value] |}
  | Rejected _ =>
      {| testResult := bump false; responseTimes := responseTimes l |}
  end.

(** How a call of [runTest] ends. *)
Inductive Exit :=
| UrlRequired            (* the [return] after 'Error: URL is required' *)
| Finished (l : Locals)  (* the end of the function body *)
| RangeError             (* [Array(n)] with [n < 0] or [n >= 2^32] *)
| NeverReturns.          (* [totalBatches] is [Infinity] *)

(** The first length that [Array(n)] refuses: lengths are below 2^32. *)
Definition arrayLimit : Z := 4294967296.

(** ** The component's functions *)

Section Component.

Variable env : Env.

(** [new Date()] *)
Definition newDate (s : Sys) : Z * Sys :=
  (dateAt env (dates s),
   {| view := view s; dates := S (dates s); trace := trace s |}).

(** [addLog(message)] *)
Definition addLog (message : string) (s : Sys) : Sys :=
  let (d, s) := newDate s in
  let timestamp := toLocaleTimeString env d in
  setLogs (fun prev => prev ++ ["[" +:+ timestamp +:+ "] " +:+ message]) s.

(** [stopTest()] *)
Definition stopTest (s : Sys) : Sys :=
  match result (view s) with
  | Some r =>
      let s := setResult (withRunning false r) s in
      addLog "Test stopped by user" s
  | None => s
  end.

(** [{result?.isRunning && (<Button onClick={stopTest}>...)}]: whether the
    Stop button is on the page. *)
Definition stopRendered (v : View) : bool :=
  match result v with
  | Some r => isRunning r
  | None => false
  end.

(** The user presses Stop, if it is there. *)
Definition pressStop (s : Sys) : Sys :=
  if stopRendered (view s) then stopTest (emit StopPressed s) else s.

(** [runTest] is suspended at [p]; the user may act. *)
Definition suspended (p : Suspension) (s : Sys) : Sys :=
  if stopClicked env p then pressStop s else s.

Variable config : TestConfig.

(** [Array(n).fill(0).map(() => makeRequest())]: the [fetch] calls of a
    batch, all issued before any of them is awaited. *)
Definition dispatch (batch : Z) (n : nat) (s : Sys) : Sys :=
  fold_left
    (fun s i => emit (Fetch batch i (url config) (requestOptions config)) s)
    (seq 0 n) s.

(** One iteration of the [for] loop; [inr] when [Array(requestsInBatch)]
    throws, which it does for a negative length and for a length of 2^32
    or more.  Nothing inside the [try] can throw ([Promise.allSettled]
    never rejects), so its [catch] is not reached. *)
Definition runBatch (totalBatches batch : Z) (st : Locals * Sys)
  : Locals * Sys + Sys :=
  let (l, s) := st in
  let batchSize := concurrency config in
  let requestsInBatch :=
    Z.min batchSize (requestCount config - batch * batchSize) in
  if (requestsInBatch <? 0) || (arrayLimit <=? requestsInBatch) then inr s
  else
    let n := Z.to_nat requestsInBatch in
    let s := dispatch batch n s in
    let s := suspended (Settling batch) s in
    let batchResults :=
      map (fun i => makeRequest config (exchangeOf env batch i)) (seq 0 n) in
    let l := fold_left tally batchResults l in
    let progress :=
      (inject_Z (batch + 1) / inject_Z totalBatches * 100)%Q in
    let s := setCurrentProgress progress s in
    let s := addLog ("Batch " +:+ pretty (batch + 1) +:+ "/"
                     +:+ pretty totalBatches +:+ " completed - Success: "
                     +:+ pretty (successfulRequests (testResult l))
                     +:+ ", Failed: "
                     +:+ pretty (failedRequests (testResult l))) s in
    let s := setResult (testResult l) s in
    let s := if batch <? totalBatches - 1
             then suspended (Pausing batch) s else s in
    inl (l, s).

(** [for (let batch = 0; batch < totalBatches; batch++)], entered with
    [remaining] iterations to go. *)
Fixpoint batches (totalBatches : Z) (remaining : nat) (batch : Z)
    (st : Locals * Sys) : Locals * Sys + Sys :=
  match remaining with
  | O => inl st
  | S k =>
      match runBatch totalBatches batch st with
      | inl st' => batches totalBatches k (batch + 1) st'
      | inr s => inr s
      end
  end.

(** The statements after the loop.  The average is taken here in exact
    rationals; the source adds and divides doubles, so its value can differ
    from this one in the last place. *)
Definition finalize (st : Locals * Sys) : Locals * Sys :=
  let (l, s) := st in
  let t := testResult l in
  let (d, s) := newDate s in
  let times := responseTimes l in
  let average :=
    if (0 <? length times)%nat
    then (sumTimes times / inject_Z (Z.of_nat (length times)))%Q
    else 0%Q in
  let t := {| totalRequests := totalRequests t;
              successfulRequests := successfulRequests t;
              failedRequests := failedRequests t;
              averageResponseTime := average;
              startTime := startTime t;
              endTime := Some d;
              isRunning := false |} in
  let s := setResult t s in
  let s := addLog "Test completed" s in
  let s := addLog ("Results: " +:+ pretty (successfulRequests t)
                   +:+ " successful, " +:+ pretty (failedRequests t)
                   +:+ " failed") s in
  let s := addLog ("Average response time: "
                   +:+ toFixed2 (averageResponseTime t) +:+ "ms") s in
  ({| testResult := t; responseTimes := times |}, s).

(** [Math.ceil(config.requestCount / batchSize)] for a non-zero divisor. *)
Definition totalBatchesOf (n c : Z) : Z :=
  Qceiling (inject_Z n / inject_Z c).

(** [runTest()].  With [concurrency = 0] the quotient is not a finite
    number: [Infinity] for a positive count, and the loop never ends;
    [NaN] or [-Infinity] otherwise, and the loop is not entered, as with
    the [0] that [totalBatchesOf] yields there. *)
Definition runTest (s : Sys) : Exit * Sys :=
  if negb (Js.truthy (url config)) then
    (UrlRequired, addLog "Error: URL is required" s)
  else
    let (d, s) := newDate s in
    let t := {| totalRequests := requestCount config;
                successfulRequests := 0;
                failedRequests := 0;
                averageResponseTime := 0;
                startTime := d;
                endTime := None;
                isRunning := true |} in
    let s := setResult t s in
    let s := setCurrentProgress 0 s in
    let s := setLogs (fun _ => []) s in
    let s := addLog ("Starting DDoS test on " +:+ url config) s in
    let s := addLog ("Configuration: " +:+ pretty (requestCount config)
                     +:+ " requests, " +:+ pretty (concurrency config)
                     +:+ " concurrent") s in
    let l := {| testResult := t; responseTimes := [] |} in
    let batchSize := concurrency config in
    let totalBatches := totalBatchesOf (requestCount config) batchSize in
    if (batchSize =? 0) && (0 <? requestCount config) then (NeverReturns, s)
    else
      match batches totalBatches (Z.to_nat totalBatches) 0 (l, s) with
      | inl st => let (l, s) := finalize st in (Finished l, s)
      | inr s => (RangeError, s)
      end.

End Component.

(** ** Header parsing as the specification words it *)

(** Cut a line at its first separator: the text before it, and the text
    after it when there is a separator at all. *)
Fixpoint cutFirst (sep : ascii) (s : string) : string * option string :=
  match s with
  | EmptyString => (EmptyString, None)
  | String c r =>
      if Ascii.eqb c sep then (EmptyString, Some r)
      else let (k, v) := cutFirst sep r in (String c k, v)
  end.

(** "Splitting each line on the first [:], trimming both sides, and
    discarding any line that fails to yield both a non-empty key and
    value." *)
Definition specLine (acc : gmap string string) (line : string)
  : gmap string string :=
  match cutFirst colon line with
  | (k, Some v) =>
      if Js.truthy (Js.trim k) && Js.truthy (Js.trim v)
      then <[Js.trim k := Js.trim v]> acc else acc
  | (_, None) => acc
  end.

Definition specHeaders (text : string) : gmap string string :=
  fold_left specLine (Js.split newline text) ∅.

(** ** Sample inputs *)

Definition nl : string := String newline EmptyString.

Definition sampleConfig (text token : string) : TestConfig :=
  {| url := "https://api.example.com/endpoint";
     method := "GET";
     requestCount := 10;
     concurrency := 3;
     payload := "";
     authToken := token;
     headers := text |}.

(** A network that answers every request with status 200 after 5 ms, a
    clock that advances by one per reading, and a user who presses Stop
    where [stops] says. *)
Definition sampleEnv (stops : Suspension -> bool) : Env :=
  {| dateAt := fun n => Z.of_nat n;
     toLocaleTimeString := fun d => pretty d;
     exchangeOf := fun _ _ =>
       {| startedAt := 0; answer := Fulfilled 200; settledAt := 5 |};
     stopClicked := stops |}.

Definition never (_ : Suspension) : bool := false.

(** Stop is pressed during the pause that follows the first batch. *)
Definition afterFirstBatch (p : Suspension) : bool :=
  match p with
  | Pausing 0 => true
  | _ => false
  end.

(** The component before any run. *)
Definition freshSys : Sys :=
  {| view := {| result := None; currentProgress := 0; logs := [] |};
     dates := 0;
     trace := [] |}.

(** The sample configuration without a target. *)
Definition noTarget : TestConfig :=
  {| url := "";
     method := "GET";
     requestCount := 10;
     concurrency := 3;
     payload := "";
     authToken := "";
     headers := "" |}.

(** The component after a run that nobody interrupted. *)
Definition completedSys : Sys :=
  snd (runTest (sampleEnv never) (sampleConfig "" "") freshSys).

(** The component during the first batch of a run. *)
Definition runningSys : Sys :=
  setResult {| totalRequests := 10;
               successfulRequests := 0;
               failedRequests := 0;
               averageResponseTime := 0;
               startTime := 0;
               endTime := None;
               isRunning := true |} freshSys.

(** ** Observations on the event trace *)

(** The batch index of every [fetch], in the order of the calls. *)
Definition fetched (tr : list Event) : list Z :=
  omap (fun e => match e with Fetch b _ _ _ => Some b | _ => None end) tr.

(** The argument of every [setCurrentProgress], in order. *)
Definition progressOf (tr : list Event) : list Q :=
  omap (fun e => match e with SetCurrentProgress p => Some p | _ => None end) tr.

(** The [isRunning] flag of every result handed to [setResult], in
    order. *)
Definition runningFlags (tr : list Event) : list bool :=
  omap (fun e => match e with SetResult r => Some (isRunning r) | _ => None end)
       tr.

(** The events that follow the first press of Stop. *)
Fixpoint afterStop (tr : list Event) : list Event :=
  match tr with
  | [] => []
  | StopPressed :: rest => rest
  | _ :: rest => afterStop rest
  end.

(** ** Measures used in the statements *)

Definition sumZ (xs : list Z) : Z := foldr Z.add 0 xs.

(** [s'] continues [s] with the fetches [fs] and the progress values [ps],
    in that order among themselves. *)
Definition continues (s s' : Sys) (fs : list Z) (ps : list Q) : Prop :=
  fetched (trace s') = fetched (trace s) ++ fs
  /\ progressOf (trace s') = progressOf (trace s) ++ ps.

(** Requests counted so far, successes and failures together. *)
Definition tallied (l : Locals) : Z :=
  successfulRequests (testResult l) + failedRequests (testResult l).

(** [progress] after batch [b] of [m]. *)
Definition progressAt (m b : Z) : Q :=
  (inject_Z (b + 1) / inject_Z m * 100)%Q.

(** The fetches of batch [b]: its index, once per request. *)
Definition fetchesOf (config : TestConfig) (b : Z) : list Z :=
  replicate
    (Z.to_nat (Z.min (concurrency config)
                 (requestCount config - b * concurrency config)))
    b.


(** [s'] has the events and the log lines of [s], and possibly more. *)
Definition grows (s s' : Sys) : Prop :=
  (exists evs, trace s' = trace s ++ evs)
  /\ (exists ls, logs (view s') = logs (view s) ++ ls).

(** How many times [c] occurs in [s]. *)
Fixpoint countChar (c : ascii) (s : string) : nat :=
  match s with
  | EmptyString => 0%nat
  | String a r => if Ascii.eqb a c then S (countChar c r) else countChar c r
  end.

(** Whether [s] consists of characters that [trim] removes. *)
Fixpoint allWhite (s : string) : bool :=
  match s with
  | EmptyString => true
  | String a r => Js.is_white a && allWhite r
  end.

(** ** Further parts of the component *)

(** [endTime - startTime] of one request. *)
Definition elapsed (x : Exchange) : Q := (settledAt x - startedAt x)%Q.

(** Whether [fetch] resolved with a response, whatever its status. *)
Definition answered (x : Exchange) : bool :=
  match answer x with
  | Fulfilled _ => true
  | Rejected _ => false
  end.

(** The exchanges of batch [b], in the order of the calls. *)
Definition batchExchanges (env : Env) (config : TestConfig) (b : Z)
  : list Exchange :=
  map (exchangeOf env b)
      (seq 0 (Z.to_nat (Z.min (concurrency config)
                          (requestCount config - b * concurrency config)))).

(** The exchanges of a whole run, batch after batch. *)
Definition runExchanges (env : Env) (config : TestConfig) : list Exchange :=
  flat_map (batchExchanges env config)
    (seqZ 0 (totalBatchesOf (requestCount config) (concurrency config))).


(** [disabled={result?.isRunning || !config.url}] of the Start button. *)
Definition startDisabled (config : TestConfig) (v : View) : bool :=
  stopRendered v || negb (Js.truthy (url config)).

(** The sample configuration with other numbers. *)
Definition sampleCounts (n c : Z) : TestConfig :=
  {| url := "https://api.example.com/endpoint";
     method := "GET";
     requestCount := n;
     concurrency := c;
     payload := "";
     authToken := "";
     headers := "" |}.

(** The component after a run, seen when the clock has been read as often
    as at the start and nothing has been traced. *)
Definition staleSys : Sys :=
  {| view := view completedSys; dates := 0; trace := [] |}.

(** A key or value as [parseHeaders] stores it: not empty, nothing left to
    trim, and neither a colon nor a line feed inside. *)
Definition wellFormed (x : string) : Prop :=
  x <> EmptyString
  /\ Js.trim x = x
  /\ countChar colon x = 0%nat
  /\ countChar newline x = 0%nat.

(** Every entry is a well-formed key with a well-formed value. *)
Definition allWellFormed (m : gmap string string) : Prop :=
  forall k v, m !! k = Some v ->
    wellFormed k /\ wellFormed v /\ k <> "__proto__".

(** ** The number fields of the form *)

(** The value of a character as a digit, letters counting from ten. *)
Definition digitOf (c : ascii) : option Z :=
  let n := Z.of_nat (nat_of_ascii c) in
  if (48 <=? n) && (n <=? 57) then Some (n - 48)
  else if (97 <=? n) && (n <=? 122) then Some (n - 87)
  else if (65 <=? n) && (n <=? 90) then Some (n - 55)
  else None.

Definition digitIn (radix : Z) (c : ascii) : option Z :=
  match digitOf c with
  | Some d => if d <? radix then Some d else None
  | None => None
  end.

(** The value of the longest prefix of [s] made of digits, continuing from
    [acc]; [None] while no digit has been read. *)
Fixpoint readDigits (radix : Z) (s : string) (acc : option Z) : option Z :=
  match s with
  | EmptyString => acc
  | String c r =>
      match digitIn radix c with
      | Some d =>
          readDigits radix r
            (Some (match acc with Some a => a | None => 0 end * radix + d))
      | None => acc
      end
  end.

Definition stripSign (s : string) : bool * string :=
  match s with
  | String "-" r => (true, r)
  | String "+" r => (false, r)
  | _ => (false, s)
  end.

Definition stripPrefix (s : string) : Z * string :=
  match s with
  | String "0" (String "x" r) => (16, r)
  | String "0" (String "X" r) => (16, r)
  | _ => (10, s)
  end.

(** [parseInt(s)] without a radix: leading white space, a sign, [0x] or
    [0X] for base sixteen, then digits up to the first character that is
    none; [None] is [NaN].  The integer is kept exact, which is what
    JavaScript does for values below 2^53. *)
Definition parseInt (s : string) : option Z :=
  let (negative, s) := stripSign (Js.trimStart s) in
  let (radix, s) := stripPrefix s in
  match readDigits radix s None with
  | Some v => Some (if negative then - v else v)
  | None => None
  end.

(** [x || d] for a number [x]: [NaN] and zero are falsy. *)
Definition orDefault (x : option Z) (d : Z) : Z :=
  match x with
  | Some v => if v =? 0 then d else v
  | None => d
  end.

(** [setConfig({ ...config, requestCount: parseInt(e.target.value) || 100 })] *)
Definition onRequestCountChange (config : TestConfig) (value : string)
  : TestConfig :=
  {| url := url config;
     method := method config;
     requestCount := orDefault (parseInt value) 100;
     concurrency := concurrency config;
     payload := payload config;
     authToken := authToken config;
     headers := headers config |}.

(** [setConfig({ ...config, concurrency: parseInt(e.target.value) || 10 })] *)
Definition onConcurrencyChange (config : TestConfig) (value : string)
  : TestConfig :=
  {| url := url config;
     method := method config;
     requestCount := requestCount config;
     concurrency := orDefault (parseInt value) 10;
     payload := payload config;
     authToken := authToken config;
     headers := headers config |}.

(** The largest integer below which every integer is a number of its own:
    [Number.MAX_SAFE_INTEGER]. *)
Definition maxSafeInteger : Z := 9007199254740991.

(** ** The order of fetches and progress reports *)

(** The events of the batch loop proper: fetches and progress reports. *)
Definition ofLoop (e : Event) : bool :=
  match e with
  | Fetch _ _ _ _ => true
  | SetCurrentProgress _ => true
  | SetResult _ => false
  | StopPressed => false
  end.

(** What batch [b] of [m] is to leave in the trace: one fetch per request,
    to the configured target with the options of [makeRequest], and then
    the progress report. *)
Definition batchEvents (config : TestConfig) (m b : Z) : list Event :=
  map (fun i => Fetch b i (url config) (requestOptions config))
      (seq 0 (Z.to_nat (Z.min (concurrency config)
                          (requestCount config - b * concurrency config))))
  ++ [SetCurrentProgress (progressAt m b)].

(** [s'] has the loop events of [s], followed by [evs]. *)
Definition sends (s s' : Sys) (evs : list Event) : Prop :=
  List.filter ofLoop (trace s') = List.filter ofLoop (trace s) ++ evs.

(** ** The counts on display *)

(** Successes and failures of a result, together. *)
Definition settled (r : TestResult) : Z :=
  successfulRequests r + failedRequests r.

(** The number of settled requests in every result handed to [setResult],
    in order. *)
Definition shown (tr : list Event) : list Z :=
  omap (fun e => match e with SetResult r => Some (settled r) | _ => None end)
       tr.

(** The view shows a result with [v] settled requests. *)
Definition showing (s : Sys) (v : Z) : Prop :=
  exists r, result (view s) = Some r /\ settled r = v.

(** From [s] to [s'] the counts handed to [setResult] go up from at least
    [lo] to at most [hi], never down. *)
Definition climbs (s s' : Sys) (lo hi : Z) : Prop :=
  exists xs,
    shown (trace s') = shown (trace s) ++ xs
    /\ StronglySorted Z.le xs
    /\ Forall (fun x => lo <= x <= hi) xs.

(** * Properties *)

(** ** Strings *)

Lemma startsWith_spec (p s : string) :
  Js.startsWith p s = true <-> exists rest, s = p +:+ rest.
Proof.
  revert s. induction p as [|a p IH]; intros s; simpl.
  - split; [intros _; exists s; reflexivity | reflexivity].
  - destruct s as [|b s].
    + split; [discriminate | intros [rest H]; discriminate].
    + rewrite andb_true_iff, IH, Ascii.eqb_eq. split.
      * intros [-> [rest ->]]. exists rest. reflexivity.
      * intros [rest H]. injection H as -> ->. split; [reflexivity | eauto].
Qed.

Lemma truthy_spec (s : string) : Js.truthy s = true <-> s <> EmptyString.
Proof. destruct s; simpl; split; congruence. Qed.

Lemma assign_Authorization (v : string) (m : gmap string string) :
  Js.assign "Authorization" v m = <["Authorization" := v]> m.
Proof. reflexivity. Qed.

(** ** The request executor *)

(** C4. [makeRequest] never rejects: whatever the configuration and
    however the network answers, it fulfils with an outcome carrying the
    elapsed time; a rejected [fetch] gives [success = false] with the
    message of the [Error] that was thrown, or 'Unknown error' when what was
    thrown is no [Error], and a response with any status code (4xx and 5xx
    included) gives [success = true] with that code. *)
Theorem makeRequest_never_rejects (config : TestConfig) (x : Exchange) :
  exists o : Outcome,
    makeRequest config x = Fulfilled o
    /\ responseTime o = (settledAt x - startedAt x)%Q
    /\ match answer x with
       | Fulfilled code =>
           success o = true /\ status o = Some code /\ error o = None
       | Rejected (ErrorObject message) =>
           success o = false /\ error o = Some message /\ status o = None
       | Rejected OtherValue =>
           success o = false /\ error o = Some "Unknown error"
           /\ status o = None
       end.
Proof.
  unfold makeRequest, try_catch.
  destruct (answer x) as [code|[message|]]; eexists;
    (split; [reflexivity|]); simpl; auto.
Qed.

Lemma makeRequest_never_rejects_witness :
  (exists o : Outcome,
     makeRequest (sampleConfig "" "")
       {| startedAt := 1;
          answer := Rejected (ErrorObject "Failed to fetch");
          settledAt := 4 |} = Fulfilled o
     /\ success o = false
     /\ error o = Some "Failed to fetch"
     /\ responseTime o = (4 - 1)%Q)
  /\ (exists o : Outcome,
       makeRequest (sampleConfig "" "")
         {| startedAt := 0; answer := Fulfilled 503; settledAt := 5 |}
       = Fulfilled o
       /\ success o = true
       /\ status o = Some 503
       /\ responseTime o = (5 - 0)%Q).
Proof.
  split.
  - destruct (makeRequest_never_rejects (sampleConfig "" "")
                {| startedAt := 1;
                   answer := Rejected (ErrorObject "Failed to fetch");
                   settledAt := 4 |}) as (o & E & T & S & M & _).
    exists o. repeat split; assumption.
  - destruct (makeRequest_never_rejects (sampleConfig "" "")
                {| startedAt := 0; answer := Fulfilled 503; settledAt := 5 |})
      as (o & E & T & S & C & _).
    exists o. repeat split; assumption.
Defined.

(** ** Header parsing *)

(** C5. On the line [Origin: http://a] the code keeps only the text
    between the first and the second colon as the value, where cutting at
    the first colon keeps [http://a]; the line [a::b] is dropped by the code
    although cutting at the first colon yields a key and a value.  On the
    specification's own example (no line with two colons) the two agree and
    give [X-Test] and [Y]. *)
Theorem parseHeaders_cuts_value_at_second_colon :
  parseHeaders (sampleConfig "" "") "Origin: http://a"
    = {[ "Origin" := "http" ]}
  /\ specHeaders "Origin: http://a" = {[ "Origin" := "http://a" ]}
  /\ parseHeaders (sampleConfig "" "") "a::b" = ∅
  /\ specHeaders "a::b" = {[ "a" := ":b" ]}
  /\ parseHeaders (sampleConfig "" "")
       ("X-Test: 1" +:+ nl +:+ "BadLine" +:+ nl +:+ "Y: 2")
     = <["Y" := "2"]> {[ "X-Test" := "1" ]}
  /\ specHeaders ("X-Test: 1" +:+ nl +:+ "BadLine" +:+ nl +:+ "Y: 2")
     = <["Y" := "2"]> {[ "X-Test" := "1" ]}.
Proof. repeat split; vm_compute; reflexivity. Qed.

(** C6. With a non-empty token the returned headers have [Authorization],
    whatever the custom text says under that name: the token itself when it
    starts with [Bearer ], and [Bearer ] followed by the token otherwise;
    every other name is as parsed from the text.  With an empty token the
    result is the parsed text and nothing else. *)
Theorem parseHeaders_authorization (config : TestConfig) (text : string) :
  let token := authToken config in
  let hs := parseHeaders config text in
  (token <> EmptyString ->
     (forall rest, token = "Bearer " +:+ rest ->
        hs !! "Authorization" = Some token)
     /\ ((forall rest, token <> "Bearer " +:+ rest) ->
        hs !! "Authorization" = Some ("Bearer " +:+ token))
     /\ (forall k : string, k <> "Authorization" ->
        hs !! k = parseCustom text !! k))
  /\ (token = EmptyString -> hs = parseCustom text).
Proof.
  intros token hs. subst hs. unfold parseHeaders. fold token. split.
  - intros Hne. apply truthy_spec in Hne. rewrite Hne.
    rewrite assign_Authorization. unfold bearer. fold token.
    split; [|split].
    + intros rest Hrest.
      assert (Js.startsWith "Bearer " token = true) as ->
        by (apply startsWith_spec; eauto).
      apply lookup_insert_eq.
    + intros Hno.
      destruct (Js.startsWith "Bearer " token) eqn:E.
      * apply startsWith_spec in E as [rest E]. destruct (Hno rest E).
      * apply lookup_insert_eq.
    + intros k Hk. apply lookup_insert_ne. congruence.
  - intros ->. reflexivity.
Qed.

Lemma parseHeaders_authorization_witness :
  parseHeaders (sampleConfig "" "abc") "Authorization: custom"
    !! "Authorization" = Some "Bearer abc"
  /\ parseHeaders (sampleConfig "" "Bearer abc") "Authorization: custom"
    !! "Authorization" = Some "Bearer abc"
  /\ parseHeaders (sampleConfig "" "") "Authorization: custom"
    = parseCustom "Authorization: custom".
Proof.
  split; [|split].
  - destruct (parseHeaders_authorization (sampleConfig "" "abc")
                "Authorization: custom") as [Hsome _].
    destruct Hsome as (_ & Hplain & _); [discriminate|].
    apply Hplain. intros rest H. vm_compute in H. discriminate.
  - destruct (parseHeaders_authorization (sampleConfig "" "Bearer abc")
                "Authorization: custom") as [Hsome _].
    destruct Hsome as (Hprefixed & _); [discriminate|].
    apply (Hprefixed "abc"). reflexivity.
  - destruct (parseHeaders_authorization (sampleConfig "" "")
                "Authorization: custom") as [_ Hnone].
    apply Hnone. reflexivity.
Defined.

(** C10. The override is by exact name.  With a non-empty token, a custom
    header spelled [Authorization] is replaced by the derived value, while a
    custom header under any other spelling, such as [authorization], stays
    in the returned map with its own value next to the derived
    [Authorization] entry. *)
Theorem parseHeaders_override_case_sensitive
    (config : TestConfig) (text k v : string) :
  authToken config <> EmptyString ->
  k <> "Authorization" ->
  parseCustom text !! k = Some v ->
  parseHeaders config text !! k = Some v
  /\ parseHeaders config text !! "Authorization"
     = Some (bearer (authToken config)).
Proof.
  intros Hne Hk Hv. unfold parseHeaders.
  apply truthy_spec in Hne. rewrite Hne, assign_Authorization. split.
  - rewrite lookup_insert_ne by congruence. exact Hv.
  - apply lookup_insert_eq.
Qed.

Lemma parseHeaders_override_case_sensitive_witness :
  let text := "authorization: mine" +:+ nl +:+ "Authorization: custom" in
  parseHeaders (sampleConfig "" "abc") text !! "authorization" = Some "mine"
  /\ parseHeaders (sampleConfig "" "abc") text !! "Authorization"
     = Some "Bearer abc".
Proof.
  apply (parseHeaders_override_case_sensitive (sampleConfig "" "abc")
           ("authorization: mine" +:+ nl +:+ "Authorization: custom")
           "authorization" "mine").
  - discriminate.
  - discriminate.
  - vm_compute. reflexivity.
Defined.

(** ** Where the code and the wording of the specification agree *)

Lemma split_cutFirst (sep : ascii) (s : string) :
  Js.split sep s
  = match cutFirst sep s with
    | (k, None) => [k]
    | (k, Some r) => k :: Js.split sep r
    end.
Proof.
  induction s as [|c s IH]; simpl; [reflexivity|].
  destruct (Ascii.eqb c sep); [reflexivity|].
  rewrite IH. destruct (cutFirst sep s) as [k [r|]]; reflexivity.
Qed.

Lemma cutFirst_absent (sep : ascii) (s : string) :
  countChar sep s = 0%nat -> cutFirst sep s = (s, None).
Proof.
  induction s as [|c s IH]; simpl; [reflexivity|].
  destruct (Ascii.eqb c sep); [discriminate|].
  intros H. rewrite (IH H). reflexivity.
Qed.

Lemma cutFirst_rest (sep : ascii) (s k r : string) :
  cutFirst sep s = (k, Some r) -> countChar sep s = S (countChar sep r).
Proof.
  revert k. induction s as [|c s IH]; simpl; intros k; [discriminate|].
  destruct (Ascii.eqb c sep).
  - intros [= _ ->]. reflexivity.
  - destruct (cutFirst sep s) as [k' [r'|]]; [|discriminate].
    intros [= _ ->]. exact (IH k' eq_refl).
Qed.

(** On a line with at most one colon whose key is not [__proto__], the
    callback of [parseHeaders] does what cutting at the first colon does. *)
Lemma parseLine_agrees (acc : gmap string string) (line : string) :
  (countChar colon line <= 1)%nat ->
  Js.trim (fst (cutFirst colon line)) <> "__proto__" ->
  parseLine acc line = specLine acc line.
Proof.
  intros Hcount Hkey. unfold parseLine, specLine.
  rewrite split_cutFirst.
  destruct (cutFirst colon line) as [k [r|]] eqn:E; [|reflexivity].
  apply cutFirst_rest in E.
  rewrite split_cutFirst, (cutFirst_absent colon r) by lia.
  simpl in Hkey |- *.
  destruct (Js.truthy (Js.trim k) && Js.truthy (Js.trim r)); [|reflexivity].
  unfold Js.assign.
  destruct (String.eqb_spec (Js.trim k) "__proto__"); [contradiction|reflexivity].
Qed.

Lemma trimEnd_empty (s : string) :
  Js.trimEnd s = EmptyString -> allWhite s = true.
Proof.
  induction s as [|c s IH]; simpl; [reflexivity|].
  destruct (Js.trimEnd s); [|discriminate].
  destruct (Js.is_white c); [auto | discriminate].
Qed.

Lemma trim_empty (s : string) :
  Js.trim s = EmptyString -> allWhite s = true.
Proof.
  unfold Js.trim. induction s as [|c s IH]; simpl; [reflexivity|].
  destruct (Js.is_white c) eqn:Ec; [exact IH|].
  simpl. rewrite Ec. destruct (Js.trimEnd s); discriminate.
Qed.

Lemma allWhite_lines (s : string) :
  allWhite s = true -> Forall (fun l => allWhite l = true) (Js.split newline s).
Proof.
  induction s as [|c s IH]; simpl.
  - intros _. repeat constructor.
  - intros [Hc Hs]%andb_true_iff. specialize (IH Hs).
    destruct (Ascii.eqb c newline); [constructor; [reflexivity | exact IH]|].
    destruct (Js.split newline s) as [|h t]; [repeat constructor; simpl; rewrite Hc; reflexivity|].
    inversion IH; subst. constructor; [|assumption].
    simpl. rewrite Hc. assumption.
Qed.

Lemma allWhite_no_colon (s : string) :
  allWhite s = true -> countChar colon s = 0%nat.
Proof.
  induction s as [|c s IH]; simpl; [reflexivity|].
  intros [Hc Hs]%andb_true_iff.
  destruct (Ascii.eqb_spec c colon) as [->|_]; [discriminate | auto].
Qed.

Lemma specLine_blank (acc : gmap string string) (line : string) :
  allWhite line = true -> specLine acc line = acc.
Proof.
  intros H. unfold specLine.
  rewrite (cutFirst_absent colon line (allWhite_no_colon line H)). reflexivity.
Qed.

(** On a text whose lines all have at most one colon and no key
    [__proto__], the custom headers the code parses are those the wording
    of the specification describes. *)
Lemma parseCustom_agrees (text : string) :
  Forall (fun line => (countChar colon line <= 1)%nat
                      /\ Js.trim (fst (cutFirst colon line)) <> "__proto__")
         (Js.split newline text) ->
  parseCustom text = specHeaders text.
Proof.
  intros Hlines. unfold parseCustom, specHeaders.
  destruct (Js.truthy (Js.trim text)) eqn:E.
  - generalize (∅ : gmap string string) as acc.
    induction Hlines as [|line rest [Hc Hk] _ IH]; intros acc; simpl;
      [reflexivity|].
    rewrite (parseLine_agrees acc line Hc Hk). apply IH.
  - assert (Js.trim text = EmptyString) as Ht
      by (destruct (Js.trim text); [reflexivity | discriminate]).
    pose proof (allWhite_lines text (trim_empty text Ht)) as Hw.
    clear Hlines.
    generalize (∅ : gmap string string) as acc.
    induction Hw as [|line rest Hl _ IH]; intros acc; simpl; [reflexivity|].
    rewrite (specLine_blank acc line Hl). apply IH.
Qed.

(** ** Batch arithmetic *)

(** [Math.ceil(n / c)] in integer terms. *)
Lemma totalBatchesOf_div (n c : Z) : totalBatchesOf n c = - (- n / c).
Proof.
  unfold totalBatchesOf, Qceiling. f_equal.
  rewrite Zdiv_Qdiv. apply Qfloor_comp.
  rewrite inject_Z_opp. unfold Qdiv. ring.
Qed.

(** The batch count is the least [m] with [n <= m * c]. *)
Lemma totalBatchesOf_bounds (n c : Z) :
  1 <= c ->
  (totalBatchesOf n c - 1) * c < n <= totalBatchesOf n c * c.
Proof.
  intros Hc. rewrite totalBatchesOf_div.
  pose proof (Z.div_mod (- n) c ltac:(lia)) as Hdm.
  pose proof (Z.mod_pos_bound (- n) c ltac:(lia)) as Hm.
  nia.
Qed.

Lemma totalBatchesOf_nonneg (n c : Z) :
  1 <= c -> 0 <= n -> 0 <= totalBatchesOf n c.
Proof.
  intros Hc Hn. pose proof (totalBatchesOf_bounds n c Hc). nia.
Qed.

(** The sizes [min(c, n - j*c)] of [k] consecutive batches from [b] on. *)
Lemma sum_batch_sizes (n c : Z) (k : nat) : forall b : Z,
  1 <= c -> 0 <= b ->
  ((0 < k)%nat -> (b + Z.of_nat k - 1) * c < n) ->
  sumZ (map (fun j => Z.min c (n - j * c)) (seqZ b (Z.of_nat k)))
  = Z.min ((b + Z.of_nat k) * c) n - Z.min (b * c) n.
Proof.
  induction k as [|k IH]; intros b Hc Hb Hlast.
  - simpl. replace (b + 0) with b by lia. lia.
  - rewrite seqZ_cons by lia. simpl map. simpl sumZ.
    replace (Z.pred (Z.of_nat (S k))) with (Z.of_nat k) by lia.
    fold (sumZ (map (fun j => Z.min c (n - j * c))
                  (seqZ (Z.succ b) (Z.of_nat k)))).
    rewrite IH by lia.
    specialize (Hlast ltac:(lia)).
    replace (Z.succ b + Z.of_nat k) with (b + Z.of_nat (S k)) by lia.
    assert (b * c < n) by nia.
    replace (Z.succ b * c) with (b * c + c) by lia.
    lia.
Qed.

(** ** Effects of the state setters on the trace *)

Lemma continues_refl (s : Sys) : continues s s [] [].
Proof. unfold continues. rewrite !app_nil_r. auto. Qed.

Lemma continues_trans (s1 s2 s3 : Sys) (fs fs' : list Z) (ps ps' : list Q) :
  continues s1 s2 fs ps -> continues s2 s3 fs' ps' ->
  continues s1 s3 (fs ++ fs') (ps ++ ps').
Proof.
  intros [H1 H2] [H3 H4]. unfold continues.
  rewrite H3, H4, H1, H2, !app_assoc. auto.
Qed.

Lemma continues_after (s1 s2 s3 : Sys) (fs : list Z) (ps : list Q) :
  continues s1 s2 [] [] -> continues s2 s3 fs ps -> continues s1 s3 fs ps.
Proof. intros H1 H2. exact (continues_trans _ _ _ _ _ _ _ H1 H2). Qed.

Lemma continues_before (s1 s2 s3 : Sys) (fs : list Z) (ps : list Q) :
  continues s1 s2 fs ps -> continues s2 s3 [] [] -> continues s1 s3 fs ps.
Proof.
  intros H1 H2. pose proof (continues_trans _ _ _ _ _ _ _ H1 H2) as H.
  rewrite !app_nil_r in H. exact H.
Qed.

Lemma continues_fetch_then_progress (s1 s2 s3 : Sys)
    (fs : list Z) (ps : list Q) :
  continues s1 s2 fs [] -> continues s2 s3 [] ps -> continues s1 s3 fs ps.
Proof.
  intros H1 H2. pose proof (continues_trans _ _ _ _ _ _ _ H1 H2) as H.
  rewrite app_nil_r in H. exact H.
Qed.

Lemma continues_same_trace (s s' : Sys) :
  trace s' = trace s -> continues s s' [] [].
Proof. intros H. unfold continues. rewrite H, !app_nil_r. auto. Qed.

Lemma addLog_trace (env : Env) (message : string) (s : Sys) :
  trace (addLog env message s) = trace s.
Proof. reflexivity. Qed.

Lemma setResult_continues (r : TestResult) (s : Sys) :
  continues s (setResult r s) [] [].
Proof.
  unfold continues, fetched, progressOf. simpl.
  rewrite !omap_app. simpl. rewrite !app_nil_r. auto.
Qed.

Lemma setCurrentProgress_continues (p : Q) (s : Sys) :
  continues s (setCurrentProgress p s) [] [p].
Proof.
  unfold continues, fetched, progressOf. simpl.
  rewrite !omap_app. simpl. rewrite !app_nil_r. auto.
Qed.

Lemma stopTest_continues (env : Env) (s : Sys) :
  continues s (stopTest env s) [] [].
Proof.
  unfold stopTest. destruct (result (view s)) as [r|].
  - eapply continues_after; [apply setResult_continues|].
    apply continues_same_trace, addLog_trace.
  - apply continues_refl.
Qed.

Lemma suspended_continues (env : Env) (p : Suspension) (s : Sys) :
  continues s (suspended env p s) [] [].
Proof.
  unfold suspended, pressStop.
  destruct (stopClicked env p); [|apply continues_refl].
  destruct (stopRendered (view s)); [|apply continues_refl].
  eapply continues_after; [|apply stopTest_continues].
  unfold continues, fetched, progressOf. simpl.
  rewrite !omap_app. simpl. rewrite !app_nil_r. auto.
Qed.

Lemma dispatch_continues (config : TestConfig) (batch : Z) (n : nat) (s : Sys) :
  continues s (dispatch config batch n s) (replicate n batch) [].
Proof.
  unfold dispatch. generalize 0%nat as i. revert s.
  induction n as [|n IH]; intros s i; simpl.
  - apply continues_refl.
  - apply (continues_trans s
             (emit (Fetch batch i (url config) (requestOptions config)) s)
             _ [batch] (replicate n batch) [] []); [|apply IH].
    unfold continues, fetched, progressOf. simpl.
    rewrite !omap_app. simpl. rewrite !app_nil_r. auto.
Qed.

(** ** Folding the outcomes of a batch *)

Lemma makeRequest_fulfils (config : TestConfig) (x : Exchange) :
  exists o, makeRequest config x = Fulfilled o.
Proof.
  unfold makeRequest, try_catch. destruct (answer x); eexists; reflexivity.
Qed.

Lemma tally_fulfilled (l : Locals) (o : Outcome) :
  tallied (tally l (Fulfilled o)) = tallied l + 1
  /\ responseTimes (tally l (Fulfilled o)) = responseTimes l ++ [responseTime o]
  /\ totalRequests (testResult (tally l (Fulfilled o)))
     = totalRequests (testResult l).
Proof.
  unfold tallied, tally. simpl. destruct (success o); simpl; repeat split; lia.
Qed.

Lemma fold_tally_batch (env : Env) (config : TestConfig) (batch : Z) (n : nat) :
  forall (i : nat) (l : Locals),
    let l' := fold_left tally
                (map (fun i => makeRequest config (exchangeOf env batch i))
                     (seq i n)) l in
    tallied l' = tallied l + Z.of_nat n
    /\ length (responseTimes l') = (length (responseTimes l) + n)%nat
    /\ totalRequests (testResult l') = totalRequests (testResult l).
Proof.
  induction n as [|n IH]; intros i l; simpl.
  - repeat split; lia.
  - destruct (makeRequest_fulfils config (exchangeOf env batch i)) as [o ->].
    destruct (tally_fulfilled l o) as (Ht & Hr & Hn).
    destruct (IH (S i) (tally l (Fulfilled o))) as (Ht' & Hr' & Hn').
    rewrite Ht', Hr', Hn', Ht, Hr, Hn, length_app. simpl.
    repeat split; lia.
Qed.

(** ** The batch loop *)

Section Loop.

Variable env : Env.
Variable config : TestConfig.

Let n := requestCount config.
Let c := concurrency config.

Lemma runBatch_spec (m b : Z) (l : Locals) (s : Sys) :
  0 <= Z.min c (n - b * c) < arrayLimit ->
  exists l' s',
    runBatch env config m b (l, s) = inl (l', s')
    /\ continues s s' (fetchesOf config b) [progressAt m b]
    /\ tallied l' = tallied l + Z.min c (n - b * c)
    /\ Z.of_nat (length (responseTimes l'))
       = Z.of_nat (length (responseTimes l)) + Z.min c (n - b * c)
    /\ totalRequests (testResult l') = totalRequests (testResult l).
Proof.
  intros Hsize. unfold runBatch. fold n c.
  destruct (Z.ltb_spec (Z.min c (n - b * c)) 0) as [Hneg|_]; [lia|].
  destruct (Z.leb_spec arrayLimit (Z.min c (n - b * c))) as [Hbig|_]; [lia|].
  cbv [orb].
  set (k := Z.to_nat (Z.min c (n - b * c))).
  destruct (fold_tally_batch env config b k 0%nat l) as (Ht & Hr & Hn).
  eexists _, _. split; [reflexivity|]. split; [|split; [|split]].
  - assert (forall s0, continues s0
              (if b <? m - 1 then suspended env (Pausing b) s0 else s0)
              [] []) as Hpause.
    { intros s0. destruct (b <? m - 1);
        [apply suspended_continues | apply continues_refl]. }
    eapply continues_before; [|apply Hpause].
    eapply continues_before; [|apply setResult_continues].
    eapply continues_before;
      [|apply continues_same_trace, addLog_trace].
    eapply continues_fetch_then_progress;
      [|apply setCurrentProgress_continues].
    eapply continues_before; [|apply suspended_continues].
    apply dispatch_continues.
  - rewrite Ht. subst k. lia.
  - rewrite Hr. subst k. lia.
  - exact Hn.
Qed.

Lemma batches_spec (m : Z) (k : nat) :
  forall (b : Z) (l : Locals) (s : Sys),
    1 <= c -> 0 <= b ->
    ((0 < k)%nat -> (b + Z.of_nat k - 1) * c < n) ->
    Z.min c n < arrayLimit ->
    exists l' s',
      batches env config m k b (l, s) = inl (l', s')
      /\ continues s s'
           (flat_map (fetchesOf config) (seqZ b (Z.of_nat k)))
           (map (progressAt m) (seqZ b (Z.of_nat k)))
      /\ tallied l'
         = tallied l
           + sumZ (map (fun j => Z.min c (n - j * c)) (seqZ b (Z.of_nat k)))
      /\ Z.of_nat (length (responseTimes l'))
         = Z.of_nat (length (responseTimes l))
           + sumZ (map (fun j => Z.min c (n - j * c)) (seqZ b (Z.of_nat k)))
      /\ totalRequests (testResult l') = totalRequests (testResult l).
Proof.
  induction k as [|k IH]; intros b l s Hc Hb Hlast Hlim.
  - exists l, s. simpl. split; [reflexivity|].
    split; [apply continues_refl|]. repeat split; lia.
  - specialize (Hlast ltac:(lia)).
    assert (0 <= Z.min c (n - b * c) < arrayLimit) as Hsize by nia.
    destruct (runBatch_spec m b l s Hsize) as (l1 & s1 & E1 & C1 & T1 & R1 & N1).
    destruct (IH (b + 1) l1 s1 Hc ltac:(lia) ltac:(intros _; nia) Hlim)
      as (l2 & s2 & E2 & C2 & T2 & R2 & N2).
    exists l2, s2. cbn [batches]. rewrite E1, E2.
    rewrite seqZ_cons by lia.
    replace (Z.pred (Z.of_nat (S k))) with (Z.of_nat k) by lia.
    replace (Z.succ b) with (b + 1) by lia.
    split; [reflexivity|]. split; [|simpl; repeat split; lia].
    simpl. apply (continues_trans s s1 s2 _ _ [progressAt m b] _ C1 C2).
Qed.

End Loop.

(** ** A whole run *)

Lemma finalize_spec (env : Env) (l : Locals) (s : Sys) :
  exists l' s',
    finalize env (l, s) = (l', s')
    /\ continues s s' [] []
    /\ result (view s') = Some (testResult l')
    /\ isRunning (testResult l') = false
    /\ tallied l' = tallied l
    /\ responseTimes l' = responseTimes l
    /\ totalRequests (testResult l') = totalRequests (testResult l).
Proof.
  eexists _, _. split; [reflexivity|].
  split; [|repeat split].
  eapply continues_before; [|apply continues_same_trace, addLog_trace].
  eapply continues_before; [|apply continues_same_trace, addLog_trace].
  eapply continues_before; [|apply continues_same_trace, addLog_trace].
  eapply continues_after; [|apply setResult_continues].
  apply continues_same_trace. reflexivity.
Qed.

(** With a target, at least one request per batch, a non-negative count
    and a first batch that [Array] can hold, [runTest] reaches the end of
    its body; its fetches and progress values are fixed by the two numbers
    alone, whatever the network answers and wherever Stop is pressed. *)
Lemma runTest_spec (env : Env) (config : TestConfig) (s : Sys) :
  url config <> EmptyString ->
  1 <= concurrency config ->
  0 <= requestCount config ->
  Z.min (concurrency config) (requestCount config) < arrayLimit ->
  let m := totalBatchesOf (requestCount config) (concurrency config) in
  exists l s',
    runTest env config s = (Finished l, s')
    /\ continues s s'
         (flat_map (fetchesOf config) (seqZ 0 m))
         (0%Q :: map (progressAt m) (seqZ 0 m))
    /\ tallied l = requestCount config
    /\ Z.of_nat (length (responseTimes l)) = requestCount config
    /\ result (view s') = Some (testResult l)
    /\ isRunning (testResult l) = false
    /\ totalRequests (testResult l) = requestCount config.
Proof.
  intros Hurl Hc Hn Hlim m.
  pose proof (totalBatchesOf_bounds (requestCount config) (concurrency config) Hc)
    as Hm.
  pose proof (totalBatchesOf_nonneg _ _ Hc Hn) as Hm0. fold m in Hm, Hm0.
  unfold runTest. apply truthy_spec in Hurl. rewrite Hurl. simpl negb. cbv iota.
  destruct (newDate env s) as [d s0] eqn:Ed.
  assert (trace s0 = trace s) as Hs0
    by (unfold newDate in Ed; injection Ed as _ <-; reflexivity).
  replace (concurrency config =? 0) with false by (symmetry; apply Z.eqb_neq; lia).
  cbv [andb]. fold m.
  match goal with
  | |- context [batches env config m (Z.to_nat m) 0 (?l0, ?s1)] =>
      destruct (batches_spec env config m (Z.to_nat m) 0 l0 s1 Hc ltac:(lia)
                  ltac:(intros _; rewrite Z2Nat.id by lia; lia) Hlim)
        as (l1 & s2 & E & C & T & R & N);
      assert (continues s s1 [] [0%Q]) as C0
  end.
  { eapply continues_before; [|apply continues_same_trace, addLog_trace].
    eapply continues_before; [|apply continues_same_trace, addLog_trace].
    eapply continues_before; [|apply continues_same_trace; reflexivity].
    eapply continues_after; [|apply setCurrentProgress_continues].
    eapply continues_after; [|apply setResult_continues].
    apply continues_same_trace. exact Hs0. }
  rewrite E.
  destruct (finalize_spec env l1 s2) as (l2 & s3 & E3 & C3 & V3 & I3 & T3 & R3 & N3).
  rewrite E3. exists l2, s3. split; [reflexivity|].
  rewrite Z2Nat.id in C, T, R by lia.
  assert (sumZ (map (fun j => Z.min (concurrency config)
                                 (requestCount config - j * concurrency config))
                  (seqZ 0 m)) = requestCount config) as Hsum.
  { pose proof (sum_batch_sizes (requestCount config) (concurrency config)
                  (Z.to_nat m) 0 Hc ltac:(lia)) as H.
    rewrite Z2Nat.id in H by lia. rewrite H by (intros _; lia). lia. }
  rewrite Hsum in T, R.
  split; [|split; [|split; [|split; [|split]]]].
  - eapply continues_before; [|exact C3].
    apply (continues_trans s _ _ [] _ [0%Q] _ C0 C).
  - rewrite T3, T. unfold tallied. simpl. lia.
  - rewrite R3, R. simpl. lia.
  - exact V3.
  - exact I3.
  - rewrite N3, N. reflexivity.
Qed.



(** ** Progress values *)





(** ** Runs *)

(** C3. Typing 5 into the request field and -3 into the concurrency field
    gives a run that completes: the batch count is not positive, the loop
    is not entered, and the run is finalized with a total of 5 although no
    request was sent, nothing was counted and no time was recorded. *)
Theorem negative_concurrency_completes_with_nothing_sent :
  let config :=
    onConcurrencyChange (onRequestCountChange (sampleConfig "" "") "5") "-3" in
  let run := runTest (sampleEnv never) config freshSys in
  requestCount config = 5
  /\ concurrency config = -3
  /\ fetched (trace (snd run)) = []
  /\ match fst run with
     | Finished l => responseTimes l = []
     | _ => False
     end
  /\ result (view (snd run))
     = Some {| totalRequests := 5;
               successfulRequests := 0;
               failedRequests := 0;
               averageResponseTime := 0;
               startTime := 0;
               endTime := Some 3;
               isRunning := false |}
  /\ logs (view (snd run))
     = ["[1] Starting DDoS test on https://api.example.com/endpoint";
        "[2] Configuration: 5 requests, -3 concurrent";
        "[4] Test completed";
        "[5] Results: 0 successful, 0 failed";
        "[6] Average response time: 0.00ms"].
Proof. repeat split; vm_compute; reflexivity. Qed.








(** ** What a started run always leaves behind *)

Lemma grows_refl (s : Sys) : grows s s.
Proof. split; exists []; rewrite app_nil_r; reflexivity. Qed.

Lemma grows_trans (s1 s2 s3 : Sys) : grows s1 s2 -> grows s2 s3 -> grows s1 s3.
Proof.
  intros [[e1 H1] [l1 H2]] [[e2 H3] [l2 H4]]. split.
  - exists (e1 ++ e2). rewrite H3, H1, app_assoc. reflexivity.
  - exists (l1 ++ l2). rewrite H4, H2, app_assoc. reflexivity.
Qed.

Lemma emit_grows (e : Event) (s : Sys) : grows s (emit e s).
Proof. split; [exists [e] | exists []; rewrite app_nil_r]; reflexivity. Qed.

Lemma setResult_grows (r : TestResult) (s : Sys) : grows s (setResult r s).
Proof.
  split; [exists [SetResult r] | exists []; rewrite app_nil_r]; reflexivity.
Qed.

Lemma setCurrentProgress_grows (p : Q) (s : Sys) :
  grows s (setCurrentProgress p s).
Proof.
  split; [exists [SetCurrentProgress p] | exists []; rewrite app_nil_r];
    reflexivity.
Qed.

Lemma addLog_grows (env : Env) (message : string) (s : Sys) :
  grows s (addLog env message s).
Proof.
  split; [exists []; rewrite app_nil_r; reflexivity|].
  eexists. reflexivity.
Qed.

Ltac grows_step :=
  first [ apply grows_refl
        | eapply grows_trans;
          [| first [ apply setResult_grows
                   | apply setCurrentProgress_grows
                   | apply addLog_grows
                   | apply emit_grows ] ] ].

Lemma stopTest_grows (env : Env) (s : Sys) : grows s (stopTest env s).
Proof. unfold stopTest. destruct (result (view s)); repeat grows_step. Qed.

Lemma suspended_grows (env : Env) (p : Suspension) (s : Sys) :
  grows s (suspended env p s).
Proof.
  unfold suspended, pressStop.
  destruct (stopClicked env p); [|apply grows_refl].
  destruct (stopRendered (view s)); [|apply grows_refl].
  eapply grows_trans; [apply emit_grows | apply stopTest_grows].
Qed.

Lemma dispatch_grows (config : TestConfig) (batch : Z) (n : nat) (s : Sys) :
  grows s (dispatch config batch n s).
Proof.
  unfold dispatch. generalize 0%nat as i. revert s.
  induction n as [|n IH]; intros s i; simpl.
  - apply grows_refl.
  - eapply grows_trans; [apply emit_grows | apply IH].
Qed.

Lemma runBatch_grows (env : Env) (config : TestConfig) (m b : Z)
    (l : Locals) (s : Sys) :
  match runBatch env config m b (l, s) with
  | inl (_, s') => grows s s'
  | inr s' => grows s s'
  end.
Proof.
  unfold runBatch.
  destruct (_ || _); [apply grows_refl|].
  assert (forall s0, grows s0
            (if b <? m - 1 then suspended env (Pausing b) s0 else s0)) as Hp.
  { intros s0. destruct (b <? m - 1);
      [apply suspended_grows | apply grows_refl]. }
  eapply grows_trans; [|apply Hp].
  do 3 grows_step.
  eapply grows_trans; [apply dispatch_grows | apply suspended_grows].
Qed.

Lemma batches_grows (env : Env) (config : TestConfig) (m : Z) (k : nat) :
  forall (b : Z) (l : Locals) (s : Sys),
    match batches env config m k b (l, s) with
    | inl (_, s') => grows s s'
    | inr s' => grows s s'
    end.
Proof.
  induction k as [|k IH]; intros b l s; cbn [batches].
  - apply grows_refl.
  - pose proof (runBatch_grows env config m b l s) as H1.
    destruct (runBatch env config m b (l, s)) as [[l1 s1]|s1]; [|exact H1].
    specialize (IH (b + 1) l1 s1).
    destruct (batches env config m k (b + 1) (l1, s1)) as [[l2 s2]|s2];
      eapply grows_trans; eassumption.
Qed.

Lemma finalize_grows (env : Env) (l : Locals) (s : Sys) :
  grows s (snd (finalize env (l, s))).
Proof.
  unfold finalize. simpl. do 4 grows_step.
  split; [exists [] | exists []]; rewrite app_nil_r; reflexivity.
Qed.

(** C9. With an empty target [runTest] returns at once: it issues no fetch
    and sets neither the result nor the progress, so the view keeps both,
    and its only trace is the log line 'Error: URL is required'.  With a
    non-empty target it does not take that return: its first act is to set
    a result that is running, and the log starts with the line announcing
    the test. *)
Theorem empty_target_rejected (env : Env) (config : TestConfig) (s : Sys) :
  (url config = EmptyString ->
     fst (runTest env config s) = UrlRequired
     /\ trace (snd (runTest env config s)) = trace s
     /\ result (view (snd (runTest env config s))) = result (view s)
     /\ currentProgress (view (snd (runTest env config s)))
        = currentProgress (view s)
     /\ logs (view (snd (runTest env config s)))
        = logs (view s)
          ++ ["[" +:+ toLocaleTimeString env (dateAt env (dates s))
              +:+ "] Error: URL is required"])
  /\ (url config <> EmptyString ->
     fst (runTest env config s) <> UrlRequired
     /\ exists (r : TestResult) (evs : list Event) (ls : list string),
          trace (snd (runTest env config s)) = trace s ++ SetResult r :: evs
          /\ isRunning r = true
          /\ logs (view (snd (runTest env config s)))
             = ("[" +:+ toLocaleTimeString env (dateAt env (S (dates s)))
                +:+ "] Starting DDoS test on " +:+ url config) :: ls).
Proof.
  split.
  - intros Hurl. unfold runTest. rewrite Hurl. simpl. auto.
  - intros Hurl. unfold runTest. apply truthy_spec in Hurl. rewrite Hurl.
    simpl negb. cbv iota.
    destruct (newDate env s) as [d s0] eqn:Ed.
    unfold newDate in Ed. injection Ed as <- <-.
    match goal with
    | |- context [batches env config ?m ?k 0 (?l0, ?s1)] =>
        pose proof (batches_grows env config m k 0 l0 s1) as Hg;
        set (start := s1) in *;
        assert (exists evs ls,
                  trace start = trace s ++ SetResult (testResult l0) :: evs
                  /\ logs (view start)
                     = ("[" +:+ toLocaleTimeString env (dateAt env (S (dates s)))
                        +:+ "] Starting DDoS test on " +:+ url config) :: ls)
          as Hstart
    end.
    { eexists _, _. subst start. simpl. rewrite <- !app_assoc. simpl.
      split; reflexivity. }
    destruct Hstart as (evs0 & ls0 & Ht & Hl).
    assert (forall s', grows start s' ->
              exists r evs ls,
                trace s' = trace s ++ SetResult r :: evs
                /\ isRunning r = true
                /\ logs (view s')
                   = ("[" +:+ toLocaleTimeString env (dateAt env (S (dates s)))
                      +:+ "] Starting DDoS test on " +:+ url config) :: ls)
      as Hfrom.
    { intros s' [[evs He] [ls Hls]].
      eexists _, (evs0 ++ evs), (ls0 ++ ls).
      rewrite He, Hls, Ht, Hl, <- app_assoc. simpl. repeat split. }
    destruct ((concurrency config =? 0) && (0 <? requestCount config)).
    + cbn [fst snd]. split; [discriminate|]. apply Hfrom, grows_refl.
    + destruct (batches env config _ _ 0 _) as [[l1 s1]|s1].
      * pose proof (finalize_grows env l1 s1) as Hf.
        destruct (finalize env (l1, s1)) as [l2 s2]. cbn [fst snd] in Hf |- *.
        split; [discriminate|]. apply Hfrom.
        eapply grows_trans; eassumption.
      * cbn [fst snd]. split; [discriminate|]. apply Hfrom, Hg.
Qed.

Lemma empty_target_rejected_witness :
  (fst (runTest (sampleEnv never) noTarget freshSys) = UrlRequired
   /\ trace (snd (runTest (sampleEnv never) noTarget freshSys)) = []
   /\ result (view (snd (runTest (sampleEnv never) noTarget freshSys))) = None
   /\ logs (view (snd (runTest (sampleEnv never) noTarget freshSys)))
      = ["[0] Error: URL is required"])
  /\ fst (runTest (sampleEnv never) (sampleConfig "" "") freshSys)
     <> UrlRequired.
Proof.
  split.
  - destruct (empty_target_rejected (sampleEnv never) noTarget freshSys)
      as [Hempty _].
    destruct (Hempty eq_refl) as (He & Ht & Hr & _ & Hl).
    repeat split; assumption.
  - destruct (empty_target_rejected (sampleEnv never) (sampleConfig "" "")
                freshSys) as [_ Hfull].
    apply Hfull. discriminate.
Defined.

(** ** Stop *)

(** C1. Ten requests, three at a time, Stop pressed during the pause after
    the first of the four batches: the press is handled (the log has its
    line), and the seven fetches of batches 1, 2 and 3 are issued after it;
    the run goes on to 'Test completed'. *)
Theorem stop_does_not_halt_batches :
  let run := runTest (sampleEnv afterFirstBatch) (sampleConfig "" "") freshSys in
  fetched (trace (snd run)) = [0; 0; 0; 1; 1; 1; 2; 2; 2; 3]
  /\ fetched (afterStop (trace (snd run))) = [1; 1; 1; 2; 2; 2; 3]
  /\ logs (view (snd run))
     = ["[1] Starting DDoS test on https://api.example.com/endpoint";
        "[2] Configuration: 10 requests, 3 concurrent";
        "[3] Batch 1/4 completed - Success: 3, Failed: 0";
        "[4] Test stopped by user";
        "[5] Batch 2/4 completed - Success: 6, Failed: 0";
        "[6] Batch 3/4 completed - Success: 9, Failed: 0";
        "[7] Batch 4/4 completed - Success: 10, Failed: 0";
        "[9] Test completed";
        "[10] Results: 10 successful, 0 failed";
        "[11] Average response time: 5.00ms"].
Proof. repeat split; vm_compute; reflexivity. Qed.

(** C2. Ten requests, three at a time, Stop pressed during the pause after
    the first batch.  The press stores a result that is not running, at
    once; but no flag is left behind for the loop: the next batch stores a
    running result again, and the fetches are those of the run in which
    Stop is never pressed. *)
Theorem stop_sets_no_cancellation_flag :
  let pressed :=
    runTest (sampleEnv afterFirstBatch) (sampleConfig "" "") freshSys in
  let unpressed := runTest (sampleEnv never) (sampleConfig "" "") freshSys in
  runningFlags (afterStop (trace (snd pressed)))
    = [false; true; true; true; false]
  /\ runningFlags (trace (snd pressed))
     = [true; true; false; true; true; true; false]
  /\ runningFlags (trace (snd unpressed)) = [true; true; true; true; true; false]
  /\ fetched (trace (snd pressed)) = fetched (trace (snd unpressed)).
Proof. repeat split; vm_compute; reflexivity. Qed.

(** C8. Ten requests, three at a time, Stop pressed during the pause after
    the first batch, at 25: after the press the progress goes on to 50, 75
    and 100, so a run that was stopped reports 100 on its last snapshot. *)
Theorem progress_reaches_100_after_stop :
  let run := runTest (sampleEnv afterFirstBatch) (sampleConfig "" "") freshSys in
  map Qred (progressOf (trace (snd run))) = [0; 25; 50; 75; 100]%Q
  /\ map Qred (progressOf (afterStop (trace (snd run)))) = [50; 75; 100]%Q
  /\ logs (view (snd run)) !! 3%nat = Some "[4] Test stopped by user"
  /\ logs (view (snd run)) !! 6%nat
     = Some "[7] Batch 4/4 completed - Success: 10, Failed: 0".
Proof. repeat split; vm_compute; reflexivity. Qed.

(** X19. [stopTest] does nothing when there is no result (no run
    was ever started).  When there is one, running or not, it stores a copy
    whose [isRunning] is false, leaves the progress alone and appends the
    line 'Test stopped by user'.  The Stop button is on the page exactly
    while the stored result is running, and a press without the button
    changes nothing. *)
Theorem stopTest_guarded_by_result (env : Env) (s : Sys) :
  (result (view s) = None -> stopTest env s = s)
  /\ (forall r, result (view s) = Some r ->
        result (view (stopTest env s)) = Some (withRunning false r)
        /\ currentProgress (view (stopTest env s)) = currentProgress (view s)
        /\ logs (view (stopTest env s))
           = logs (view s)
             ++ ["[" +:+ toLocaleTimeString env (dateAt env (dates s))
                 +:+ "] Test stopped by user"])
  /\ (stopRendered (view s) = true <->
      exists r, result (view s) = Some r /\ isRunning r = true)
  /\ (stopRendered (view s) = false -> pressStop env s = s).
Proof.
  split; [|split; [|split]].
  - intros H. unfold stopTest. rewrite H. reflexivity.
  - intros r H. unfold stopTest. rewrite H. simpl. auto.
  - unfold stopRendered. destruct (result (view s)) as [r|].
    + split; [eauto | intros (r' & [= <-] & H); exact H].
    + split; [discriminate | intros (r' & H & _); discriminate].
  - intros H. unfold pressStop. rewrite H. reflexivity.
Qed.

Lemma stopTest_guarded_by_result_witness :
  stopTest (sampleEnv never) freshSys = freshSys
  /\ (result (view (stopTest (sampleEnv never) runningSys))
      = Some {| totalRequests := 10;
                successfulRequests := 0;
                failedRequests := 0;
                averageResponseTime := 0;
                startTime := 0;
                endTime := None;
                isRunning := false |}
      /\ logs (view (stopTest (sampleEnv never) runningSys))
         = ["[0] Test stopped by user"])
  /\ pressStop (sampleEnv never) completedSys = completedSys.
Proof.
  split; [|split].
  - destruct (stopTest_guarded_by_result (sampleEnv never) freshSys)
      as (Hnone & _).
    apply Hnone. reflexivity.
  - destruct (stopTest_guarded_by_result (sampleEnv never) runningSys)
      as (_ & Hsome & _).
    destruct (Hsome _ eq_refl) as (Hr & _ & Hl). split; assumption.
  - destruct (stopTest_guarded_by_result (sampleEnv never) completedSys)
      as (_ & _ & _ & Hgate).
    apply Hgate. vm_compute. reflexivity.
Defined.

(** * Further properties *)

(** ** What a run records *)

Lemma fold_tally_exchanges (env : Env) (config : TestConfig) (batch : Z)
    (n : nat) :
  forall (i : nat) (l : Locals),
    let xs := map (exchangeOf env batch) (seq i n) in
    let l' := fold_left tally
                (map (fun i => makeRequest config (exchangeOf env batch i))
                     (seq i n)) l in
    responseTimes l' = responseTimes l ++ map elapsed xs
    /\ successfulRequests (testResult l')
       = successfulRequests (testResult l)
         + Z.of_nat (length (List.filter answered xs))
    /\ failedRequests (testResult l')
       = failedRequests (testResult l)
         + Z.of_nat (length (List.filter (fun x => negb (answered x)) xs)).
Proof.
  induction n as [|n IH]; intros i l; simpl.
  - rewrite app_nil_r. repeat split; lia.
  - destruct (IH (S i) (tally l (makeRequest config (exchangeOf env batch i))))
      as (Hr & Hs & Hf).
    rewrite Hr, Hs, Hf. clear IH Hr Hs Hf.
    unfold makeRequest, try_catch, answered, elapsed.
    destruct (answer (exchangeOf env batch i)) as [code|e]; simpl;
      rewrite <- app_assoc; simpl; repeat split; lia.
Qed.

Lemma runBatch_locals (env : Env) (config : TestConfig) (m b : Z)
    (l l' : Locals) (s s' : Sys) :
  runBatch env config m b (l, s) = inl (l', s') ->
  responseTimes l'
  = responseTimes l ++ map elapsed (batchExchanges env config b)
  /\ successfulRequests (testResult l')
     = successfulRequests (testResult l)
       + Z.of_nat (length (List.filter answered (batchExchanges env config b)))
  /\ failedRequests (testResult l')
     = failedRequests (testResult l)
       + Z.of_nat (length (List.filter (fun x => negb (answered x))
                             (batchExchanges env config b))).
Proof.
  unfold runBatch, batchExchanges.
  destruct (_ || _); [discriminate|].
  intros [= <- _]. apply fold_tally_exchanges.
Qed.

Lemma batches_locals (env : Env) (config : TestConfig) (m : Z) (k : nat) :
  forall (b : Z) (l l' : Locals) (s s' : Sys),
    batches env config m k b (l, s) = inl (l', s') ->
    let xs := flat_map (batchExchanges env config) (seqZ b (Z.of_nat k)) in
    responseTimes l' = responseTimes l ++ map elapsed xs
    /\ successfulRequests (testResult l')
       = successfulRequests (testResult l)
         + Z.of_nat (length (List.filter answered xs))
    /\ failedRequests (testResult l')
       = failedRequests (testResult l)
         + Z.of_nat (length (List.filter (fun x => negb (answered x)) xs)).
Proof.
  induction k as [|k IH]; intros b l l' s s'; cbn [batches].
  - intros [= <- <-]. simpl. rewrite app_nil_r. repeat split; lia.
  - destruct (runBatch env config m b (l, s)) as [[l1 s1]|s1] eqn:E1;
      [|discriminate].
    intros E2. apply runBatch_locals in E1 as (R1 & S1 & F1).
    apply IH in E2 as (R2 & S2 & F2).
    rewrite seqZ_cons by lia.
    replace (Z.pred (Z.of_nat (S k))) with (Z.of_nat k) by lia.
    replace (Z.succ b) with (b + 1) by lia.
    cbn [flat_map]. cbv zeta.
    rewrite map_app, !List.filter_app, !length_app, R2, S2, F2, R1, S1, F1.
    rewrite <- app_assoc. repeat split; lia.
Qed.

(** What [runTest] hands to its last [setResult], read off the exchanges
    of the run. *)
Lemma finished_run_locals (env : Env) (config : TestConfig) (s s' : Sys)
    (l : Locals) :
  runTest env config s = (Finished l, s') ->
  let xs := runExchanges env config in
  responseTimes l = map elapsed xs
  /\ successfulRequests (testResult l)
     = Z.of_nat (length (List.filter answered xs))
  /\ failedRequests (testResult l)
     = Z.of_nat (length (List.filter (fun x => negb (answered x)) xs))
  /\ averageResponseTime (testResult l)
     = if (0 <? length (responseTimes l))%nat
       then (sumTimes (responseTimes l)
             / inject_Z (Z.of_nat (length (responseTimes l))))%Q
       else 0%Q.
Proof.
  unfold runTest.
  destruct (negb (Js.truthy (url config))); [discriminate|].
  destruct (newDate env s) as [d s0].
  destruct ((concurrency config =? 0) && (0 <? requestCount config));
    [discriminate|].
  set (m := totalBatchesOf (requestCount config) (concurrency config)).
  destruct (batches env config m (Z.to_nat m) 0 _) as [[l1 s1]|s1] eqn:E;
    [|discriminate].
  apply batches_locals in E as (R & S & F). simpl in R, S, F.
  unfold finalize. destruct (newDate env s1) as [d1 s2].
  intros [= <- _]. cbn [testResult responseTimes successfulRequests
                        failedRequests averageResponseTime].
  unfold runExchanges. fold m.
  assert (seqZ 0 (Z.of_nat (Z.to_nat m)) = seqZ 0 m) as Hseq.
  { destruct (Z.le_gt_cases 0 m); [rewrite Z2Nat.id by lia; reflexivity|].
    unfold seqZ. replace (Z.to_nat m) with 0%nat by lia. reflexivity. }
  rewrite Hseq in R, S, F. cbv zeta. rewrite R, S, F. repeat split.
Qed.










(** ** Counts outside the range of the form *)

Lemma totalBatchesOf_nonpos (n c : Z) :
  (n <= 0 /\ 0 <= c) \/ (0 <= n /\ c < 0) -> totalBatchesOf n c <= 0.
Proof.
  rewrite totalBatchesOf_div. intros H.
  destruct (Z.eq_dec c 0) as [->|Hc0]; [rewrite Z.div_0_r; lia|].
  pose proof (Z.div_mod (- n) c Hc0) as Hdm.
  destruct H as [[Hn Hc]|[Hn Hc]].
  - pose proof (Z.mod_pos_bound (- n) c ltac:(lia)). nia.
  - pose proof (Z.mod_neg_bound (- n) c ltac:(lia)). nia.
Qed.

Lemma totalBatchesOf_both_negative (n c : Z) :
  n < 0 -> c < 0 -> 1 <= totalBatchesOf n c.
Proof.
  rewrite totalBatchesOf_div. intros Hn Hc.
  pose proof (Z.div_mod (- n) c ltac:(lia)) as Hdm.
  pose proof (Z.mod_neg_bound (- n) c ltac:(lia)). nia.
Qed.

Lemma batches_throw_at_once (env : Env) (config : TestConfig) (m : Z)
    (k : nat) (l : Locals) (s : Sys) :
  requestCount config < 0 -> concurrency config < 0 ->
  batches env config m (S k) 0 (l, s) = inr s.
Proof.
  intros Hn Hc. cbn [batches]. unfold runBatch.
  destruct (Z.ltb_spec (Z.min (concurrency config)
                          (requestCount config - 0 * concurrency config)) 0);
    [reflexivity | lia].
Qed.




(** X5. With a negative count and a negative concurrency the run dies in
    its first iteration, before any [fetch]: the result stored at the start
    stays as it is, running and with both counts at 0, the log holds the two
    opening lines and nothing else, and the Start button stays disabled. *)
Theorem negative_numbers_leave_the_run_hanging
    (env : Env) (config : TestConfig) (s : Sys) :
  url config <> EmptyString ->
  requestCount config < 0 ->
  concurrency config < 0 ->
  let s' := snd (runTest env config s) in
  fst (runTest env config s) = RangeError
  /\ fetched (trace s') = fetched (trace s)
  /\ result (view s')
     = Some {| totalRequests := requestCount config;
               successfulRequests := 0;
               failedRequests := 0;
               averageResponseTime := 0;
               startTime := dateAt env (dates s);
               endTime := None;
               isRunning := true |}
  /\ startDisabled config (view s') = true
  /\ logs (view s')
     = ["[" +:+ toLocaleTimeString env (dateAt env (S (dates s)))
        +:+ "] Starting DDoS test on " +:+ url config;
        "[" +:+ toLocaleTimeString env (dateAt env (S (S (dates s))))
        +:+ "] Configuration: " +:+ pretty (requestCount config)
        +:+ " requests, " +:+ pretty (concurrency config) +:+ " concurrent"].
Proof.
  intros Hurl Hn Hc s'. subst s'.
  pose proof (totalBatchesOf_both_negative _ _ Hn Hc) as Hm.
  destruct (runTest env config s) as [e s1] eqn:E. cbn [fst snd].
  unfold runTest in E. apply truthy_spec in Hurl. rewrite Hurl in E.
  simpl negb in E. cbv iota in E. unfold newDate at 1 in E.
  replace (concurrency config =? 0) with false in E
    by (symmetry; apply Z.eqb_neq; lia).
  cbv [andb] in E.
  destruct (Z.to_nat (totalBatchesOf (requestCount config) (concurrency config)))
    as [|k] eqn:Ek; [lia|].
  rewrite batches_throw_at_once in E by assumption.
  injection E as <- <-.
  split; [reflexivity|]. split.
  - unfold fetched. simpl. rewrite !omap_app. simpl. rewrite !app_nil_r.
    reflexivity.
  - unfold startDisabled. simpl. repeat split.
Qed.

Lemma negative_numbers_leave_the_run_hanging_witness :
  fst (runTest (sampleEnv never) (sampleCounts (-5) (-3)) freshSys) = RangeError
  /\ startDisabled (sampleCounts (-5) (-3))
       (view (snd (runTest (sampleEnv never) (sampleCounts (-5) (-3)) freshSys)))
     = true
  /\ logs (view (snd (runTest (sampleEnv never) (sampleCounts (-5) (-3))
                        freshSys)))
     = ["[1] Starting DDoS test on https://api.example.com/endpoint";
        "[2] Configuration: -5 requests, -3 concurrent"].
Proof.
  destruct (negative_numbers_leave_the_run_hanging (sampleEnv never)
              (sampleCounts (-5) (-3)) freshSys ltac:(discriminate)
              ltac:(simpl; lia) ltac:(simpl; lia))
    as (He & _ & _ & Hd & Hl).
  split; [exact He|]. split; [exact Hd | exact Hl].
Defined.

(** X6. When the count is not positive and the concurrency not negative,
    or the count not negative and the concurrency negative, the loop is not
    entered: no [fetch] is issued and the run finishes at once, with both
    counts and the average at 0, the progress at 0, the result not running
    and its total the count as configured; the log has the two opening and
    the three closing lines. *)
Theorem run_without_batches (env : Env) (config : TestConfig) (s : Sys) :
  url config <> EmptyString ->
  (requestCount config <= 0 /\ 0 <= concurrency config)
  \/ (0 <= requestCount config /\ concurrency config < 0) ->
  let s' := snd (runTest env config s) in
  let line (k : nat) (message : string) :=
    "[" +:+ toLocaleTimeString env (dateAt env (k + dates s)) +:+ "] "
    +:+ message in
  (exists l, fst (runTest env config s) = Finished l /\ responseTimes l = [])
  /\ fetched (trace s') = fetched (trace s)
  /\ result (view s')
     = Some {| totalRequests := requestCount config;
               successfulRequests := 0;
               failedRequests := 0;
               averageResponseTime := 0;
               startTime := dateAt env (dates s);
               endTime := Some (dateAt env (3 + dates s));
               isRunning := false |}
  /\ currentProgress (view s') = 0%Q
  /\ logs (view s')
     = [line 1%nat ("Starting DDoS test on " +:+ url config);
        line 2%nat ("Configuration: " +:+ pretty (requestCount config)
                    +:+ " requests, " +:+ pretty (concurrency config)
                    +:+ " concurrent");
        line 4%nat "Test completed";
        line 5%nat "Results: 0 successful, 0 failed";
        line 6%nat "Average response time: 0.00ms"].
Proof.
  intros Hurl Hsigns s' line. subst s' line.
  pose proof (totalBatchesOf_nonpos _ _ Hsigns) as Hm.
  destruct (runTest env config s) as [e s1] eqn:E. cbn [fst snd].
  unfold runTest in E. apply truthy_spec in Hurl. rewrite Hurl in E.
  simpl negb in E. cbv iota in E. unfold newDate at 1 in E.
  replace ((concurrency config =? 0) && (0 <? requestCount config))
    with false in E.
  2:{ symmetry. apply andb_false_iff.
      destruct Hsigns as [[Hn Hc]|[Hn Hc]];
        [right; apply Z.ltb_ge; lia | left; apply Z.eqb_neq; lia]. }
  replace (Z.to_nat (totalBatchesOf (requestCount config) (concurrency config)))
    with 0%nat in E by lia.
  cbn [batches] in E. unfold finalize, newDate in E.
  injection E as <- <-.
  split; [eexists; split; reflexivity|]. split.
  - unfold fetched. simpl. rewrite !omap_app. simpl. rewrite !app_nil_r.
    reflexivity.
  - simpl. repeat split.
Qed.

Lemma run_without_batches_witness :
  (exists l, fst (runTest (sampleEnv never) (sampleCounts (-5) 3) freshSys)
             = Finished l /\ responseTimes l = [])
  /\ fetched (trace (snd (runTest (sampleEnv never) (sampleCounts (-5) 3)
                            freshSys))) = []
  /\ logs (view (snd (runTest (sampleEnv never) (sampleCounts (-5) 3)
                         freshSys)))
     = ["[1] Starting DDoS test on https://api.example.com/endpoint";
        "[2] Configuration: -5 requests, 3 concurrent";
        "[4] Test completed";
        "[5] Results: 0 successful, 0 failed";
        "[6] Average response time: 0.00ms"].
Proof.
  destruct (run_without_batches (sampleEnv never) (sampleCounts (-5) 3)
              freshSys ltac:(discriminate) ltac:(simpl; lia))
    as (Hl & Hf & _ & _ & Hlogs).
  split; [exact Hl|]. split; [exact Hf | exact Hlogs].
Defined.

(** ** A new run *)

(** X7. A run with a target starts from a clean slate: the result, the
    progress and the log lines left by earlier runs have no influence on
    what it does or on the state it leaves. *)
Theorem runTest_starts_afresh (env : Env) (config : TestConfig) (s1 s2 : Sys) :
  url config <> EmptyString ->
  dates s1 = dates s2 ->
  trace s1 = trace s2 ->
  runTest env config s1 = runTest env config s2.
Proof.
  intros Hurl Hd Ht. apply truthy_spec in Hurl.
  destruct s1 as [v1 d1 t1], s2 as [v2 d2 t2]. simpl in Hd, Ht. subst d2 t2.
  unfold runTest. rewrite Hurl. reflexivity.
Qed.

Lemma runTest_starts_afresh_witness :
  runTest (sampleEnv never) (sampleConfig "" "") staleSys
  = runTest (sampleEnv never) (sampleConfig "" "") freshSys.
Proof.
  apply runTest_starts_afresh; [discriminate | reflexivity | reflexivity].
Defined.

(** ** Header lines *)

Lemma parseLine_blank (acc : gmap string string) (line : string) :
  allWhite line = true -> parseLine acc line = acc.
Proof.
  intros H. unfold parseLine.
  rewrite split_cutFirst, (cutFirst_absent colon line (allWhite_no_colon line H)).
  reflexivity.
Qed.

Lemma parseCustom_unguarded (text : string) :
  parseCustom text = fold_left parseLine (Js.split newline text) ∅.
Proof.
  unfold parseCustom. destruct (Js.truthy (Js.trim text)) eqn:E; [reflexivity|].
  assert (Js.trim text = EmptyString) as Ht
    by (destruct (Js.trim text); [reflexivity | discriminate]).
  pose proof (allWhite_lines text (trim_empty text Ht)) as Hw.
  generalize (∅ : gmap string string) as acc.
  induction Hw as [|line rest Hl _ IH]; intros acc; simpl; [reflexivity|].
  rewrite (parseLine_blank acc line Hl). apply IH.
Qed.

Lemma split_nonempty (sep : ascii) (s : string) : Js.split sep s <> [].
Proof.
  destruct s as [|c s]; simpl; [discriminate|].
  destruct (Ascii.eqb c sep); [discriminate|].
  destruct (Js.split sep s); discriminate.
Qed.

Lemma split_app (sep : ascii) (a b : string) :
  Js.split sep (a +:+ String sep b) = Js.split sep a ++ Js.split sep b.
Proof.
  induction a as [|c a IH]; simpl.
  - rewrite Ascii.eqb_refl. reflexivity.
  - destruct (Ascii.eqb c sep); [rewrite IH; reflexivity|].
    rewrite IH. pose proof (split_nonempty sep a) as Hne.
    destruct (Js.split sep a) as [|h t]; [contradiction | reflexivity].
Qed.

Lemma split_single (sep : ascii) (s : string) :
  countChar sep s = 0%nat -> Js.split sep s = [s].
Proof.
  induction s as [|c s IH]; simpl; [reflexivity|].
  destruct (Ascii.eqb c sep); [discriminate|].
  intros H. rewrite (IH H). reflexivity.
Qed.

(** X8. Custom headers are parsed line by line from the top: the headers of
    a text followed by further lines are what those lines make of the
    headers of the text, so a later line replaces an earlier one with the
    same key; the test for an all-blank text changes nothing about this. *)
Theorem parseCustom_line_by_line (a b : string) :
  parseCustom a = fold_left parseLine (Js.split newline a) ∅
  /\ parseCustom (a +:+ nl +:+ b)
     = fold_left parseLine (Js.split newline b) (parseCustom a)
  /\ (countChar newline b = 0%nat ->
      parseCustom (a +:+ nl +:+ b) = parseLine (parseCustom a) b).
Proof.
  assert (parseCustom (a +:+ nl +:+ b)
          = fold_left parseLine (Js.split newline b) (parseCustom a)) as Happ.
  { rewrite !parseCustom_unguarded.
    change (nl +:+ b) with (String newline b).
    rewrite split_app, fold_left_app. reflexivity. }
  split; [apply parseCustom_unguarded|]. split; [exact Happ|].
  intros Hb. rewrite Happ, (split_single newline b Hb). reflexivity.
Qed.

Lemma parseCustom_line_by_line_witness :
  parseCustom ("Accept: text/html" +:+ nl +:+ "X-Id: 1" +:+ nl +:+ "Accept: */*")
  = <["Accept" := "*/*"]> (parseCustom ("Accept: text/html" +:+ nl +:+ "X-Id: 1")).
Proof.
  destruct (parseCustom_line_by_line
              ("Accept: text/html" +:+ nl +:+ "X-Id: 1") "Accept: */*")
    as (_ & _ & Hline).
  transitivity (parseCustom (("Accept: text/html" +:+ nl +:+ "X-Id: 1")
                             +:+ nl +:+ "Accept: */*")); [reflexivity|].
  rewrite Hline by reflexivity. reflexivity.
Defined.

(** ** What a parsed header looks like *)

Lemma countChar_cons_zero (c a : ascii) (s : string) :
  countChar c (String a s) = 0%nat ->
  Ascii.eqb a c = false /\ countChar c s = 0%nat.
Proof. simpl. destruct (Ascii.eqb a c); [discriminate | auto]. Qed.

Lemma countChar_trimStart (c : ascii) (s : string) :
  countChar c s = 0%nat -> countChar c (Js.trimStart s) = 0%nat.
Proof.
  induction s as [|a s IH]; [reflexivity|].
  intros H. simpl Js.trimStart. destruct (Js.is_white a); [|exact H].
  apply IH. apply (countChar_cons_zero c a s H).
Qed.

Lemma countChar_trimEnd (c : ascii) (s : string) :
  countChar c s = 0%nat -> countChar c (Js.trimEnd s) = 0%nat.
Proof.
  induction s as [|a s IH]; [reflexivity|].
  intros H. destruct (countChar_cons_zero c a s H) as [Ha Hs].
  specialize (IH Hs). simpl Js.trimEnd.
  destruct (Js.trimEnd s) as [|x y].
  - destruct (Js.is_white a); [reflexivity|]. simpl. rewrite Ha. reflexivity.
  - simpl in IH |- *. rewrite Ha. exact IH.
Qed.

Lemma countChar_trim (c : ascii) (s : string) :
  countChar c s = 0%nat -> countChar c (Js.trim s) = 0%nat.
Proof. intros H. apply countChar_trimEnd, countChar_trimStart, H. Qed.

Lemma trimEnd_idem (s : string) : Js.trimEnd (Js.trimEnd s) = Js.trimEnd s.
Proof.
  induction s as [|a s IH]; [reflexivity|]. simpl.
  destruct (Js.trimEnd s) as [|x y] eqn:E.
  - destruct (Js.is_white a) eqn:Ea; [reflexivity|]. simpl. rewrite Ea.
    reflexivity.
  - change (Js.trimEnd (String a (String x y)))
      with (match Js.trimEnd (String x y) with
            | EmptyString => if Js.is_white a then EmptyString
                             else String a EmptyString
            | r' => String a r'
            end).
    rewrite IH. reflexivity.
Qed.

Lemma trimStart_head (s : string) :
  match Js.trimStart s with
  | EmptyString => True
  | String c _ => Js.is_white c = false
  end.
Proof.
  induction s as [|a s IH]; simpl; [exact I|].
  destruct (Js.is_white a) eqn:Ea; [exact IH | exact Ea].
Qed.

Lemma trim_idem (s : string) : Js.trim (Js.trim s) = Js.trim s.
Proof.
  unfold Js.trim. pose proof (trimStart_head s) as Hh.
  destruct (Js.trimStart s) as [|c r]; [reflexivity|].
  assert (Js.trimStart (Js.trimEnd (String c r)) = Js.trimEnd (String c r))
    as ->.
  { simpl. destruct (Js.trimEnd r); rewrite ?Hh; simpl; rewrite Hh;
      reflexivity. }
  apply trimEnd_idem.
Qed.

Lemma split_pieces_no_sep (sep : ascii) (s : string) :
  Forall (fun p => countChar sep p = 0%nat) (Js.split sep s).
Proof.
  induction s as [|c s IH]; simpl; [repeat constructor|].
  destruct (Ascii.eqb c sep) eqn:Ec; [constructor; [reflexivity | exact IH]|].
  destruct (Js.split sep s) as [|h t];
    [repeat constructor; simpl; rewrite Ec; reflexivity|].
  inversion IH; subst. constructor; [|assumption].
  simpl. rewrite Ec. assumption.
Qed.

Lemma split_pieces_without (c sep : ascii) (s : string) :
  countChar c s = 0%nat ->
  Forall (fun p => countChar c p = 0%nat) (Js.split sep s).
Proof.
  induction s as [|a s IH]; simpl; [repeat constructor|].
  destruct (Ascii.eqb a c) eqn:Ea; [discriminate|]. intros H.
  specialize (IH H).
  destruct (Ascii.eqb a sep); [constructor; [reflexivity | exact IH]|].
  destruct (Js.split sep s) as [|h t];
    [repeat constructor; simpl; rewrite Ea; reflexivity|].
  inversion IH; subst. constructor; [|assumption].
  simpl. rewrite Ea. assumption.
Qed.

Lemma wellFormed_trim (p : string) :
  Js.truthy (Js.trim p) = true ->
  countChar colon p = 0%nat -> countChar newline p = 0%nat ->
  wellFormed (Js.trim p).
Proof.
  intros Ht Hc Hn. unfold wellFormed.
  split; [apply truthy_spec, Ht|]. split; [apply trim_idem|].
  split; apply countChar_trim; assumption.
Qed.

Lemma parseLine_wellFormed (acc : gmap string string) (line : string) :
  countChar newline line = 0%nat ->
  allWellFormed acc -> allWellFormed (parseLine acc line).
Proof.
  intros Hnl Hacc. unfold parseLine.
  pose proof (split_pieces_no_sep colon line) as Hc.
  pose proof (split_pieces_without newline colon line Hnl) as Hn.
  destruct (Js.split colon line) as [|p0 [|p1 rest]]; simpl; try exact Hacc.
  inversion Hc as [|? ? Hc0 Hc']; subst. inversion Hc' as [|? ? Hc1 _]; subst.
  inversion Hn as [|? ? Hn0 Hn']; subst. inversion Hn' as [|? ? Hn1 _]; subst.
  destruct (Js.truthy (Js.trim p0)) eqn:E0; [|exact Hacc].
  destruct (Js.truthy (Js.trim p1)) eqn:E1; [|exact Hacc].
  simpl. unfold Js.assign.
  destruct (String.eqb_spec (Js.trim p0) "__proto__") as [|Hproto];
    [exact Hacc|].
  intros k v. rewrite lookup_insert. case_decide as Hk.
  - intros [= <-]. subst k. repeat split;
      try apply wellFormed_trim; assumption.
  - apply Hacc.
Qed.

(** X9. Whatever the custom text, every header parsed from it has a key and
    a value that are not empty, have no white space left at either end and
    contain neither a colon nor a line feed; the key is never [__proto__]. *)
Theorem parsed_headers_are_well_formed (text k v : string) :
  parseCustom text !! k = Some v ->
  wellFormed k /\ wellFormed v /\ k <> "__proto__".
Proof.
  rewrite parseCustom_unguarded. revert k v.
  change (allWellFormed (fold_left parseLine (Js.split newline text) ∅)).
  pose proof (split_pieces_no_sep newline text) as Hlines.
  assert (allWellFormed (∅ : gmap string string)) as Hacc
    by (intros k v H; rewrite lookup_empty in H; discriminate).
  revert Hacc. generalize (∅ : gmap string string) as acc.
  induction Hlines as [|line rest Hl _ IH]; intros acc Hacc; simpl;
    [exact Hacc|].
  apply IH, parseLine_wellFormed; assumption.
Qed.

Lemma parsed_headers_are_well_formed_witness :
  wellFormed "X-Test" /\ wellFormed "1" /\ "X-Test" <> "__proto__".
Proof.
  apply (parsed_headers_are_well_formed
           ("  X-Test :  1 " +:+ nl +:+ "BadLine") "X-Test" "1").
  vm_compute. reflexivity.
Defined.

(** ** The request that is sent *)

(** X10. The headers sent are the parsed ones plus [Content-Type]: a header
    parsed under exactly that name is sent as given, otherwise
    [application/json] is; a token reaches the request as [Authorization];
    and the payload is sent as body exactly when it is not empty and the
    method is not [GET]. *)
Theorem requestOptions_merge (config : TestConfig) :
  let hs := parseHeaders config (headers config) in
  let o := requestOptions config in
  (forall k : string, k <> "Content-Type" -> init_headers o !! k = hs !! k)
  /\ init_headers o !! "Content-Type"
     = Some (default "application/json" (hs !! "Content-Type"))
  /\ (authToken config <> EmptyString ->
      init_headers o !! "Authorization" = Some (bearer (authToken config)))
  /\ (forall p : string,
        init_body o = Some p
        <-> p = payload config /\ payload config <> EmptyString
            /\ method config <> "GET").
Proof.
  intros hs o. subst o. unfold requestOptions. fold hs. cbn [init_headers init_body].
  assert (forall k : string, k <> "Content-Type" ->
            (hs ∪ {[ "Content-Type" := "application/json" ]}) !! k = hs !! k)
    as Hother.
  { intros k Hk. apply lookup_union_l. apply lookup_singleton_ne. congruence. }
  split; [exact Hother|]. split; [|split].
  - destruct (hs !! "Content-Type") as [v|] eqn:E; simpl.
    + apply lookup_union_Some_l. exact E.
    + rewrite lookup_union_r by exact E. apply lookup_singleton_eq.
  - intros Htok. rewrite Hother by discriminate. subst hs.
    unfold parseHeaders. apply truthy_spec in Htok. rewrite Htok.
    rewrite assign_Authorization. apply lookup_insert_eq.
  - intros p.
    destruct (String.eqb_spec (method config) "GET") as [Hm|Hm]; simpl.
    + split; [discriminate | intros (_ & _ & H); contradiction].
    + destruct (payload config) as [|c r] eqn:Ep; simpl.
      * split; [discriminate | intros (_ & H & _); contradiction].
      * split; [intros [= <-]; repeat split; congruence
               | intros (-> & _); reflexivity].
Qed.

Lemma requestOptions_merge_witness :
  init_headers (requestOptions
                  {| url := "https://api.example.com/endpoint";
                     method := "POST";
                     requestCount := 10;
                     concurrency := 3;
                     payload := "{}";
                     authToken := "abc";
                     headers := "content-type: text/plain" |})
    !! "Authorization" = Some "Bearer abc".
Proof.
  refine (proj1 (proj2 (proj2 (requestOptions_merge _))) _). discriminate.
Defined.

(** X11. The derived [Authorization] value always starts with [Bearer ],
    and deriving it again from itself changes nothing: a token pasted with
    its prefix is never prefixed twice. *)
Theorem bearer_idempotent (token : string) :
  Js.startsWith "Bearer " (bearer token) = true
  /\ bearer (bearer token) = bearer token.
Proof.
  assert (Js.startsWith "Bearer " (bearer token) = true) as H.
  { unfold bearer. destruct (Js.startsWith "Bearer " token) eqn:E; [exact E|].
    apply startsWith_spec. eauto. }
  split; [exact H|]. unfold bearer at 1. rewrite H. reflexivity.
Qed.

(** ** The number fields *)

Lemma small_N_cases (d : N) :
  (d < 10)%N ->
  d = 0%N \/ d = 1%N \/ d = 2%N \/ d = 3%N \/ d = 4%N \/ d = 5%N
  \/ d = 6%N \/ d = 7%N \/ d = 8%N \/ d = 9%N.
Proof. lia. Qed.

Lemma digitIn_pretty_char (d : N) :
  (d < 10)%N -> digitIn 10 (pretty_N_char d) = Some (Z.of_N d).
Proof.
  intros H.
  destruct (small_N_cases d H) as [->|[->|[->|[->|[->|[->|[->|[->|[->| ->]]]]]]]]];
    reflexivity.
Qed.

(** Reading the digits that [pretty] puts in front of [s]. *)
Lemma readDigits_pretty_go (x : N) :
  forall (s : string) (acc : option Z),
    (0 < x)%N ->
    exists k : Z,
      0 <= k
      /\ readDigits 10 (pretty_N_go x s) acc
         = readDigits 10 s
             (Some (match acc with Some a => a | None => 0 end * 10 ^ k
                    + Z.of_N x)).
Proof.
  induction (N.lt_wf_0 x) as [x _ IH]. intros s acc Hx.
  rewrite pretty_N_go_step by exact Hx.
  pose proof (N.mod_lt x 10 ltac:(lia)) as Hmod.
  pose proof (N.div_mod x 10 ltac:(lia)) as Hdm.
  destruct (N.eq_dec (x `div` 10)%N 0%N) as [Hq|Hq].
  - rewrite Hq, pretty_N_go_0. exists 1. split; [lia|].
    cbn [readDigits]. rewrite digitIn_pretty_char by exact Hmod.
    do 2 f_equal. lia.
  - destruct (IH (x `div` 10)%N ltac:(apply N.div_lt; lia)
                (String (pretty_N_char (x `mod` 10)) s) acc ltac:(lia))
      as (k & Hk & E).
    exists (k + 1). split; [lia|]. rewrite E.
    cbn [readDigits]. rewrite digitIn_pretty_char by exact Hmod.
    do 2 f_equal. rewrite Z.pow_add_r by lia. lia.
Qed.

(** The first character that [pretty] writes for a positive number is a
    digit other than zero. *)
Lemma pretty_go_head (x : N) :
  forall s : string,
    (0 < x)%N ->
    exists (d : N) (r : string),
      (0 < d < 10)%N /\ pretty_N_go x s = String (pretty_N_char d) r.
Proof.
  induction (N.lt_wf_0 x) as [x _ IH]. intros s Hx.
  rewrite pretty_N_go_step by exact Hx.
  pose proof (N.mod_lt x 10 ltac:(lia)) as Hmod.
  pose proof (N.div_mod x 10 ltac:(lia)) as Hdm.
  destruct (N.eq_dec (x `div` 10)%N 0%N) as [Hq|Hq].
  - rewrite Hq, pretty_N_go_0. exists (x `mod` 10)%N, s. split; [lia | reflexivity].
  - apply IH; [apply N.div_lt; lia | lia].
Qed.

Lemma parse_unsigned_digits (t : string) :
  (exists (d : N) (r : string),
     (0 < d < 10)%N /\ t = String (pretty_N_char d) r) ->
  Js.trimStart t = t /\ stripSign t = (false, t) /\ stripPrefix t = (10, t).
Proof.
  intros (d & r & Hd & ->).
  destruct (small_N_cases d ltac:(lia))
    as [->|[->|[->|[->|[->|[->|[->|[->|[->| ->]]]]]]]]];
    try lia; repeat split.
Qed.

Lemma parseInt_pretty_pos (p : positive) :
  parseInt (pretty (Z.pos p)) = Some (Z.pos p)
  /\ parseInt (pretty (Z.neg p)) = Some (Z.neg p).
Proof.
  assert (pretty (Z.pos p) = pretty_N_go (N.pos p) "") as Epos by reflexivity.
  assert (pretty (Z.neg p) = String "-" (pretty_N_go (N.pos p) ""))
    as Eneg by reflexivity.
  destruct (parse_unsigned_digits _ (pretty_go_head (N.pos p) "" ltac:(lia)))
    as (Ht & Hs & Hp).
  destruct (readDigits_pretty_go (N.pos p) "" None ltac:(lia)) as (k & _ & E).
  simpl in E.
  split.
  - rewrite Epos. unfold parseInt. rewrite Ht, Hs, Hp, E. reflexivity.
  - rewrite Eneg. unfold parseInt.
    change (Js.trimStart (String "-" (pretty_N_go (N.pos p) "")))
      with (String "-" (pretty_N_go (N.pos p) "")).
    change (stripSign (String "-" (pretty_N_go (N.pos p) "")))
      with (true, pretty_N_go (N.pos p) "").
    cbv iota. rewrite Hp, E. reflexivity.
Qed.

Lemma parseInt_pretty (z : Z) : parseInt (pretty z) = Some z.
Proof.
  destruct z as [|p|p]; [reflexivity | apply parseInt_pretty_pos..].
Qed.

(** X12. Typing the decimal digits of an integer into a number field
    stores that integer, negative ones included, except that 0 is replaced
    by the default (100 requests, 10 concurrent); so typing again what a
    field shows leaves the configuration as it is. *)
Theorem number_fields_read_back (config : TestConfig) (z : Z) :
  - maxSafeInteger <= z <= maxSafeInteger ->
  requestCount (onRequestCountChange config (pretty z))
    = (if z =? 0 then 100 else z)
  /\ concurrency (onConcurrencyChange config (pretty z))
     = (if z =? 0 then 10 else z)
  /\ (z = requestCount config -> z <> 0 ->
      onRequestCountChange config (pretty z) = config)
  /\ (z = concurrency config -> z <> 0 ->
      onConcurrencyChange config (pretty z) = config).
Proof.
  intros _. unfold onRequestCountChange, onConcurrencyChange.
  rewrite parseInt_pretty. cbn [requestCount concurrency orDefault].
  split; [reflexivity|]. split; [reflexivity|].
  split; intros -> Hz; apply Z.eqb_neq in Hz; rewrite Hz;
    destruct config; reflexivity.
Qed.

Lemma number_fields_read_back_witness :
  requestCount (onRequestCountChange (sampleConfig "" "") "-5") = -5
  /\ concurrency (onConcurrencyChange (sampleConfig "" "") "0") = 10
  /\ onRequestCountChange (sampleConfig "" "") "10" = sampleConfig "" "".
Proof.
  split; [|split].
  - apply (number_fields_read_back (sampleConfig "" "") (-5)).
    unfold maxSafeInteger. lia.
  - apply (number_fields_read_back (sampleConfig "" "") 0).
    unfold maxSafeInteger. lia.
  - apply (number_fields_read_back (sampleConfig "" "") 10);
      [unfold maxSafeInteger; lia | reflexivity | lia].
Defined.

Lemma runTest_returns (env : Env) (config : TestConfig) (s : Sys) :
  concurrency config <> 0 -> fst (runTest env config s) <> NeverReturns.
Proof.
  intros Hc. unfold runTest.
  destruct (negb (Js.truthy (url config))); [discriminate|].
  destruct (newDate env s) as [d s0].
  replace (concurrency config =? 0) with false
    by (symmetry; apply Z.eqb_neq; exact Hc).
  cbv [andb].
  destruct (batches env config _ _ 0 _) as [st|s1]; [|discriminate].
  destruct (finalize env st). discriminate.
Qed.

Lemma orDefault_nonzero (x : option Z) (d : Z) : d <> 0 -> orDefault x d <> 0.
Proof.
  intros Hd. unfold orDefault. destruct x as [v|]; [|exact Hd].
  destruct (Z.eqb_spec v 0); assumption.
Qed.

(** X13. For text that holds no number, or a number in the safe-integer
    range, a number field never stores 0: text without a leading number and
    the number 0 give the default.  So with a request count in the
    safe-integer range and a concurrency that came from its field in this
    way, the batch count is finite and [runTest] does not loop for ever. *)
Theorem number_fields_never_store_zero
    (env : Env) (config : TestConfig) (value : string) (s : Sys) :
  match parseInt value with
  | Some v => - maxSafeInteger <= v <= maxSafeInteger
  | None => True
  end ->
  - maxSafeInteger <= requestCount config <= maxSafeInteger ->
  requestCount (onRequestCountChange config value) <> 0
  /\ concurrency (onConcurrencyChange config value) <> 0
  /\ (parseInt value = None \/ parseInt value = Some 0 ->
      requestCount (onRequestCountChange config value) = 100
      /\ concurrency (onConcurrencyChange config value) = 10)
  /\ fst (runTest env (onConcurrencyChange config value) s) <> NeverReturns.
Proof.
  intros _ _.
  split; [apply orDefault_nonzero; lia|].
  split; [apply orDefault_nonzero; lia|]. split.
  - intros [H|H]; simpl; rewrite H; split; reflexivity.
  - apply runTest_returns. apply orDefault_nonzero. lia.
Qed.

Lemma number_fields_never_store_zero_witness :
  requestCount (onRequestCountChange (sampleConfig "" "") "") = 100
  /\ concurrency (onConcurrencyChange (sampleConfig "" "") "abc") = 10.
Proof.
  split.
  - apply (number_fields_never_store_zero (sampleEnv never)
             (sampleConfig "" "") "" freshSys);
      [exact I | unfold maxSafeInteger; simpl; lia | left; reflexivity].
  - apply (number_fields_never_store_zero (sampleEnv never)
             (sampleConfig "" "") "abc" freshSys);
      [exact I | unfold maxSafeInteger; simpl; lia | left; reflexivity].
Defined.

(** ** The two buttons *)

(** X14. While a result is running and a target is configured, Start is
    disabled and Stop is on the page.  One press of Stop takes the Stop
    button away and enables Start again, and a second press finds no
    button: pressing twice is pressing once. *)
Theorem stop_press_enables_start (env : Env) (config : TestConfig) (s : Sys) :
  url config <> EmptyString ->
  stopRendered (view s) = true ->
  startDisabled config (view s) = true
  /\ stopRendered (view (pressStop env s)) = false
  /\ startDisabled config (view (pressStop env s)) = false
  /\ pressStop env (pressStop env s) = pressStop env s.
Proof.
  intros Hurl Hrun. apply truthy_spec in Hurl.
  assert (stopRendered (view (pressStop env s)) = false) as Hgone.
  { unfold pressStop. rewrite Hrun. unfold stopTest, stopRendered in *.
    simpl. destruct (result (view s)) as [r|]; [reflexivity | discriminate]. }
  split; [unfold startDisabled; rewrite Hrun; reflexivity|].
  split; [exact Hgone|]. split.
  - unfold startDisabled. rewrite Hgone, Hurl. reflexivity.
  - unfold pressStop at 1. rewrite Hgone. reflexivity.
Qed.

Lemma stop_press_enables_start_witness :
  startDisabled (sampleConfig "" "") (view runningSys) = true
  /\ startDisabled (sampleConfig "" "")
       (view (pressStop (sampleEnv never) runningSys)) = false
  /\ pressStop (sampleEnv never) (pressStop (sampleEnv never) runningSys)
     = pressStop (sampleEnv never) runningSys.
Proof.
  destruct (stop_press_enables_start (sampleEnv never) (sampleConfig "" "")
              runningSys ltac:(discriminate) ltac:(reflexivity))
    as (H1 & _ & H2 & H3).
  split; [exact H1|]. split; [exact H2 | exact H3].
Defined.

(** ** Batches in sequence *)

Lemma sends_refl (s : Sys) : sends s s [].
Proof. unfold sends. rewrite app_nil_r. reflexivity. Qed.

Lemma sends_trans (s1 s2 s3 : Sys) (xs ys : list Event) :
  sends s1 s2 xs -> sends s2 s3 ys -> sends s1 s3 (xs ++ ys).
Proof.
  unfold sends. intros H1 H2. rewrite H2, H1, app_assoc. reflexivity.
Qed.

Lemma sends_quiet_then (s1 s2 s3 : Sys) (ys : list Event) :
  sends s1 s2 [] -> sends s2 s3 ys -> sends s1 s3 ys.
Proof. intros H1 H2. exact (sends_trans _ _ _ _ _ H1 H2). Qed.

Lemma sends_then_quiet (s1 s2 s3 : Sys) (xs : list Event) :
  sends s1 s2 xs -> sends s2 s3 [] -> sends s1 s3 xs.
Proof.
  intros H1 H2. pose proof (sends_trans _ _ _ _ _ H1 H2) as H.
  rewrite app_nil_r in H. exact H.
Qed.

Lemma emit_sends (e : Event) (s : Sys) :
  sends s (emit e s) (if ofLoop e then [e] else []).
Proof.
  unfold sends. simpl. rewrite List.filter_app. simpl.
  destruct (ofLoop e); reflexivity.
Qed.

Lemma same_trace_sends (s s' : Sys) : trace s' = trace s -> sends s s' [].
Proof. intros H. unfold sends. rewrite H, app_nil_r. reflexivity. Qed.

Lemma setResult_sends (r : TestResult) (s : Sys) : sends s (setResult r s) [].
Proof. exact (emit_sends (SetResult r) _). Qed.

Lemma setCurrentProgress_sends (p : Q) (s : Sys) :
  sends s (setCurrentProgress p s) [SetCurrentProgress p].
Proof. exact (emit_sends (SetCurrentProgress p) _). Qed.

Lemma stopTest_sends (env : Env) (s : Sys) : sends s (stopTest env s) [].
Proof.
  unfold stopTest. destruct (result (view s)) as [r|]; [|apply sends_refl].
  eapply sends_quiet_then; [apply setResult_sends|].
  apply same_trace_sends, addLog_trace.
Qed.

Lemma suspended_sends (env : Env) (p : Suspension) (s : Sys) :
  sends s (suspended env p s) [].
Proof.
  unfold suspended, pressStop.
  destruct (stopClicked env p); [|apply sends_refl].
  destruct (stopRendered (view s)); [|apply sends_refl].
  eapply sends_quiet_then; [|apply stopTest_sends].
  exact (emit_sends StopPressed s).
Qed.

Lemma dispatch_sends (config : TestConfig) (batch : Z) (n : nat) (s : Sys) :
  sends s (dispatch config batch n s)
    (map (fun i => Fetch batch i (url config) (requestOptions config))
         (seq 0 n)).
Proof.
  unfold dispatch. generalize 0%nat as i. revert s.
  induction n as [|n IH]; intros s i; simpl.
  - apply sends_refl.
  - apply (sends_trans s
             (emit (Fetch batch i (url config) (requestOptions config)) s)
             _ [Fetch batch i (url config) (requestOptions config)]).
    + exact (emit_sends (Fetch batch i (url config) (requestOptions config)) s).
    + apply IH.
Qed.

Lemma runBatch_sends (env : Env) (config : TestConfig) (m b : Z)
    (l l' : Locals) (s s' : Sys) :
  runBatch env config m b (l, s) = inl (l', s') ->
  sends s s' (batchEvents config m b).
Proof.
  unfold runBatch, batchEvents.
  destruct (_ || _); [discriminate|]. intros [= _ <-].
  assert (forall s0, sends s0
            (if b <? m - 1 then suspended env (Pausing b) s0 else s0) [])
    as Hpause.
  { intros s0. destruct (b <? m - 1);
      [apply suspended_sends | apply sends_refl]. }
  eapply sends_then_quiet; [|apply Hpause].
  eapply sends_then_quiet; [|apply setResult_sends].
  eapply sends_then_quiet; [|apply same_trace_sends, addLog_trace].
  eapply sends_trans; [|apply setCurrentProgress_sends].
  eapply sends_then_quiet; [|apply suspended_sends].
  apply dispatch_sends.
Qed.

Lemma batches_sends (env : Env) (config : TestConfig) (m : Z) (k : nat) :
  forall (b : Z) (l l' : Locals) (s s' : Sys),
    batches env config m k b (l, s) = inl (l', s') ->
    sends s s' (flat_map (batchEvents config m) (seqZ b (Z.of_nat k))).
Proof.
  induction k as [|k IH]; intros b l l' s s'; cbn [batches].
  - intros [= _ <-]. apply sends_refl.
  - destruct (runBatch env config m b (l, s)) as [[l1 s1]|s1] eqn:E1;
      [|discriminate].
    intros E2. apply runBatch_sends in E1. apply IH in E2.
    rewrite seqZ_cons by lia.
    replace (Z.pred (Z.of_nat (S k))) with (Z.of_nat k) by lia.
    replace (Z.succ b) with (b + 1) by lia.
    cbn [flat_map]. exact (sends_trans _ _ _ _ _ E1 E2).
Qed.

(** X15. In a run with a target, a concurrency of at least one and a
    non-negative count, both safe integers, whose first batch fits an array,
    the batches follow one another without overlap: after the reset of the progress to 0, the
    trace shows for each batch in turn all its fetches, each to the
    configured target with the same options, then its progress report, and
    only then the fetches of the next batch, wherever Stop is pressed. *)
Theorem batches_run_in_sequence (env : Env) (config : TestConfig) (s : Sys) :
  url config <> EmptyString ->
  1 <= concurrency config ->
  0 <= requestCount config ->
  Z.min (concurrency config) (requestCount config) < arrayLimit ->
  requestCount config <= maxSafeInteger ->
  concurrency config <= maxSafeInteger ->
  let m := totalBatchesOf (requestCount config) (concurrency config) in
  List.filter ofLoop (trace (snd (runTest env config s)))
  = List.filter ofLoop (trace s)
    ++ SetCurrentProgress 0 :: flat_map (batchEvents config m) (seqZ 0 m).
Proof.
  intros Hurl Hc Hn Hlim _ _ m.
  pose proof (totalBatchesOf_bounds (requestCount config) _ Hc) as Hm.
  pose proof (totalBatchesOf_nonneg _ _ Hc Hn) as Hm0. fold m in Hm, Hm0.
  destruct (runTest env config s) as [e s'] eqn:E. cbn [snd].
  unfold runTest in E. apply truthy_spec in Hurl. rewrite Hurl in E.
  simpl negb in E. cbv iota in E. unfold newDate at 1 in E.
  replace (concurrency config =? 0) with false in E
    by (symmetry; apply Z.eqb_neq; lia).
  cbv [andb] in E. fold m in E.
  match type of E with
  | context [batches env config m (Z.to_nat m) 0 (?l0, ?s1)] =>
      destruct (batches_spec env config m (Z.to_nat m) 0 l0 s1 Hc ltac:(lia)
                  ltac:(intros _; rewrite Z2Nat.id by lia; lia) Hlim)
        as (l1 & s2 & Eb & _);
      assert (sends s s1 [SetCurrentProgress 0]) as Hstart
  end.
  { eapply sends_then_quiet; [|apply same_trace_sends, addLog_trace].
    eapply sends_then_quiet; [|apply same_trace_sends, addLog_trace].
    eapply sends_then_quiet; [|apply same_trace_sends; reflexivity].
    eapply sends_quiet_then; [|apply setCurrentProgress_sends].
    eapply sends_quiet_then; [|apply setResult_sends].
    apply same_trace_sends. reflexivity. }
  rewrite Eb in E. pose proof (batches_sends _ _ _ _ _ _ _ _ _ Eb) as Hloop.
  rewrite Z2Nat.id in Hloop by lia.
  assert (sends s2 s' []) as Hend.
  { unfold finalize, newDate in E. injection E as _ <-.
    eapply sends_then_quiet; [|apply same_trace_sends, addLog_trace].
    eapply sends_then_quiet; [|apply same_trace_sends, addLog_trace].
    eapply sends_then_quiet; [|apply same_trace_sends, addLog_trace].
    eapply sends_quiet_then; [|apply setResult_sends].
    apply same_trace_sends. reflexivity. }
  exact (sends_then_quiet _ _ _ _ (sends_trans _ _ _ _ _ Hstart Hloop) Hend).
Qed.

Lemma batches_run_in_sequence_witness :
  List.filter ofLoop
    (trace (snd (runTest (sampleEnv afterFirstBatch) (sampleConfig "" "")
                   freshSys)))
  = SetCurrentProgress 0
    :: flat_map (batchEvents (sampleConfig "" "") 4) (seqZ 0 4).
Proof.
  exact (batches_run_in_sequence (sampleEnv afterFirstBatch)
           (sampleConfig "" "") freshSys ltac:(discriminate)
           ltac:(simpl; lia) ltac:(simpl; lia)
           ltac:(unfold arrayLimit; simpl; lia)
           ltac:(unfold maxSafeInteger; simpl; lia)
           ltac:(unfold maxSafeInteger; simpl; lia)).
Defined.

(** ** Counts never go down *)

Lemma sorted_app (xs ys : list Z) (b : Z) :
  StronglySorted Z.le xs -> StronglySorted Z.le ys ->
  Forall (fun x => x <= b) xs -> Forall (fun y => b <= y) ys ->
  StronglySorted Z.le (xs ++ ys).
Proof.
  intros Hxs Hys Hle Hge. induction Hxs as [|x xs Hs IH Hx]; simpl;
    [exact Hys|].
  inversion Hle as [|? ? Hxb Hle']; subst.
  constructor; [apply IH; exact Hle'|].
  apply Forall_app. split; [exact Hx|].
  eapply Forall_impl; [exact Hge|]. simpl. intros y Hy. lia.
Qed.

Lemma climbs_refl (s : Sys) (lo hi : Z) : climbs s s lo hi.
Proof.
  exists []. rewrite app_nil_r. repeat split; constructor.
Qed.

Lemma climbs_trans (s1 s2 s3 : Sys) (a b c d : Z) :
  a <= b -> b <= c -> c <= d ->
  climbs s1 s2 a b -> climbs s2 s3 c d -> climbs s1 s3 a d.
Proof.
  intros Hab Hbc Hcd (xs & E1 & S1 & F1) (ys & E2 & S2 & F2).
  exists (xs ++ ys). split; [rewrite E2, E1, app_assoc; reflexivity|]. split.
  - apply (sorted_app xs ys b S1 S2).
    + eapply Forall_impl; [exact F1|]. simpl. intros x Hx. lia.
    + eapply Forall_impl; [exact F2|]. simpl. intros y Hy. lia.
  - apply Forall_app. split.
    + eapply Forall_impl; [exact F1|]. simpl. intros x Hx. lia.
    + eapply Forall_impl; [exact F2|]. simpl. intros y Hy. lia.
Qed.

Lemma climbs_after (a b c d : Z) (s1 s2 s3 : Sys) :
  climbs s2 s3 c d -> climbs s1 s2 a b ->
  a <= b -> b <= c -> c <= d -> climbs s1 s3 a d.
Proof. intros H2 H1 Hab Hbc Hcd. exact (climbs_trans _ _ _ _ _ _ _ Hab Hbc Hcd H1 H2). Qed.

Lemma climbs_same_trace (s s' : Sys) (lo hi : Z) :
  trace s' = trace s -> climbs s s' lo hi.
Proof.
  intros H. exists []. rewrite H, app_nil_r. repeat split; constructor.
Qed.

Lemma climbs_emit_other (e : Event) (s : Sys) (lo hi : Z) :
  (forall r, e <> SetResult r) -> climbs s (emit e s) lo hi.
Proof.
  intros He. exists []. unfold shown. simpl. rewrite omap_app. simpl.
  destruct e; try (split; [reflexivity | split; constructor]).
  destruct (He r eq_refl).
Qed.

Lemma climbs_setResult (r : TestResult) (s : Sys) :
  climbs s (setResult r s) (settled r) (settled r)
  /\ showing (setResult r s) (settled r).
Proof.
  split.
  - exists [settled r]. unfold shown. simpl. rewrite omap_app. simpl.
    split; [reflexivity|]. split; repeat constructor; lia.
  - exists r. split; reflexivity.
Qed.

Lemma showing_addLog (env : Env) (message : string) (s : Sys) (v : Z) :
  showing s v -> showing (addLog env message s) v.
Proof. intros (r & H & Hv). exists r. split; assumption. Qed.

Lemma climbs_stopTest (env : Env) (s : Sys) (v : Z) :
  showing s v -> climbs s (stopTest env s) v v /\ showing (stopTest env s) v.
Proof.
  intros (r & Hr & Hv). unfold stopTest. rewrite Hr.
  destruct (climbs_setResult (withRunning false r) s) as [Hc Hs].
  change (settled (withRunning false r)) with (settled r) in Hc, Hs.
  rewrite Hv in Hc, Hs. split.
  - destruct Hc as (xs & E & S & F). exists xs. rewrite addLog_trace.
    repeat split; assumption.
  - apply showing_addLog, Hs.
Qed.

Lemma climbs_suspended (env : Env) (p : Suspension) (s : Sys) (v : Z) :
  showing s v ->
  climbs s (suspended env p s) v v /\ showing (suspended env p s) v.
Proof.
  intros Hs. unfold suspended, pressStop.
  destruct (stopClicked env p); [|split; [apply climbs_refl | exact Hs]].
  destruct (stopRendered (view s)); [|split; [apply climbs_refl | exact Hs]].
  destruct (climbs_stopTest env (emit StopPressed s) v Hs) as [Hc Hs'].
  split; [|exact Hs'].
  apply (climbs_trans s (emit StopPressed s) _ v v v v); try lia;
    [|exact Hc].
  apply climbs_emit_other. discriminate.
Qed.

Lemma climbs_dispatch (config : TestConfig) (batch : Z) (n : nat) (s : Sys)
    (v : Z) :
  showing s v ->
  climbs s (dispatch config batch n s) v v
  /\ showing (dispatch config batch n s) v.
Proof.
  unfold dispatch. generalize 0%nat as i. revert s.
  induction n as [|n IH]; intros s i Hs; simpl.
  - split; [apply climbs_refl | exact Hs].
  - destruct (IH (emit (Fetch batch i (url config) (requestOptions config)) s)
                (S i) Hs) as [Hc Hs'].
    split; [|exact Hs'].
    apply (climbs_trans s
             (emit (Fetch batch i (url config) (requestOptions config)) s)
             _ v v v v); try lia; [|exact Hc].
    apply climbs_emit_other. discriminate.
Qed.

Lemma showing_setCurrentProgress (p : Q) (s : Sys) (v : Z) :
  showing s v -> showing (setCurrentProgress p s) v.
Proof. intros (r & H & Hv). exists r. split; assumption. Qed.

Lemma runBatch_climbs (env : Env) (config : TestConfig) (m b : Z)
    (l l' : Locals) (s s' : Sys) (v : Z) :
  runBatch env config m b (l, s) = inl (l', s') ->
  showing s v -> v <= tallied l ->
  climbs s s' v (tallied l') /\ showing s' (tallied l')
  /\ tallied l <= tallied l'.
Proof.
  unfold runBatch.
  destruct (_ || _); [discriminate|]. intros [= <- <-] Hs Hv.
  set (n := Z.to_nat (Z.min (concurrency config)
                        (requestCount config - b * concurrency config))).
  destruct (fold_tally_batch env config b n 0%nat l) as (Ht & _).
  set (l1 := fold_left tally _ l) in *.
  assert (tallied l <= tallied l1) as Hup by lia.
  destruct (climbs_dispatch config b n s v Hs) as [C1 S1].
  destruct (climbs_suspended env (Settling b) _ v S1) as [C2 S2].
  match goal with
  | |- context [setResult (testResult l1) ?s4] =>
      destruct (climbs_setResult (testResult l1) s4) as [C4 S4];
      assert (climbs s s4 v v) as C3
  end.
  { eapply (climbs_after v v v v);
      [apply climbs_same_trace, addLog_trace | | lia..].
    eapply (climbs_after v v v v);
      [apply climbs_emit_other; discriminate | | lia..].
    exact (climbs_after v v v v _ _ _ C2 C1 ltac:(lia) ltac:(lia) ltac:(lia)). }
  change (settled (testResult l1)) with (tallied l1) in C4, S4.
  assert (forall s0, showing s0 (tallied l1) ->
            climbs s0 (if b <? m - 1 then suspended env (Pausing b) s0 else s0)
              (tallied l1) (tallied l1)
            /\ showing (if b <? m - 1 then suspended env (Pausing b) s0 else s0)
                 (tallied l1)) as Hpause.
  { intros s0 H0. destruct (b <? m - 1);
      [apply climbs_suspended, H0 | split; [apply climbs_refl | exact H0]]. }
  destruct (Hpause _ S4) as [C5 S5].
  split; [|split; [exact S5 | exact Hup]].
  eapply (climbs_after v v (tallied l1) (tallied l1)); [| exact C3 | lia..].
  exact (climbs_after _ _ _ _ _ _ _ C5 C4 ltac:(lia) ltac:(lia) ltac:(lia)).
Qed.

Lemma batches_climbs (env : Env) (config : TestConfig) (m : Z) (k : nat) :
  forall (b : Z) (l l' : Locals) (s s' : Sys) (v : Z),
    batches env config m k b (l, s) = inl (l', s') ->
    showing s v -> v <= tallied l ->
    climbs s s' v (tallied l')
    /\ (showing s' (tallied l') \/ (k = 0%nat /\ showing s' v))
    /\ tallied l <= tallied l'.
Proof.
  induction k as [|k IH]; intros b l l' s s' v; cbn [batches].
  - intros [= <- <-] Hs Hv. split; [apply climbs_refl|]. split; [auto | lia].
  - destruct (runBatch env config m b (l, s)) as [[l1 s1]|s1] eqn:E1;
      [|discriminate].
    intros E2 Hs Hv.
    destruct (runBatch_climbs _ _ _ _ _ _ _ _ _ E1 Hs Hv) as (C1 & S1 & U1).
    destruct (IH _ _ _ _ _ _ E2 S1 ltac:(lia)) as (C2 & S2 & U2).
    split; [|split; [|lia]].
    + apply (climbs_trans s s1 s' v (tallied l1) (tallied l1) (tallied l')
               ltac:(lia) ltac:(lia) ltac:(lia) C1 C2).
    + left. destruct S2 as [S2|[-> S2]]; [exact S2|].
      cbn [batches] in E2. injection E2 as <- <-. exact S1.
Qed.

(** X16. During a run with a target, a concurrency of at least one and a
    non-negative count, both safe integers, whose first batch fits an array,
    the number of settled requests handed to the display never goes down and never
    leaves the range from 0 to the request count, wherever Stop is pressed;
    at the end the display shows the full count. *)
Theorem shown_counts_never_decrease (env : Env) (config : TestConfig) (s : Sys) :
  url config <> EmptyString ->
  1 <= concurrency config ->
  0 <= requestCount config ->
  Z.min (concurrency config) (requestCount config) < arrayLimit ->
  requestCount config <= maxSafeInteger ->
  concurrency config <= maxSafeInteger ->
  exists xs : list Z,
    shown (trace (snd (runTest env config s))) = shown (trace s) ++ xs
    /\ StronglySorted Z.le xs
    /\ Forall (fun x => 0 <= x <= requestCount config) xs
    /\ showing (snd (runTest env config s)) (requestCount config).
Proof.
  intros Hurl Hc Hn Hlim _ _.
  set (m := totalBatchesOf (requestCount config) (concurrency config)).
  pose proof (totalBatchesOf_bounds (requestCount config) _ Hc) as Hm.
  pose proof (totalBatchesOf_nonneg _ _ Hc Hn) as Hm0. fold m in Hm, Hm0.
  destruct (runTest env config s) as [e s'] eqn:E. cbn [snd].
  unfold runTest in E. apply truthy_spec in Hurl. rewrite Hurl in E.
  simpl negb in E. cbv iota in E. unfold newDate at 1 in E.
  replace (concurrency config =? 0) with false in E
    by (symmetry; apply Z.eqb_neq; lia).
  cbv [andb] in E. fold m in E.
  match type of E with
  | context [batches env config m (Z.to_nat m) 0 (?l0, ?s1)] =>
      destruct (batches_spec env config m (Z.to_nat m) 0 l0 s1 Hc ltac:(lia)
                  ltac:(intros _; rewrite Z2Nat.id by lia; lia) Hlim)
        as (l1 & s2 & Eb & _ & T & _);
      assert (climbs s s1 0 0 /\ showing s1 0) as [C0 S0]
  end.
  { match goal with
    | |- context [setResult ?t ?s0] =>
        destruct (climbs_setResult t s0) as [Cr Sr]
    end.
    change (settled _) with 0 in Cr, Sr. split.
    - eapply (climbs_after 0 0 0 0);
        [apply climbs_same_trace, addLog_trace | | lia..].
      eapply (climbs_after 0 0 0 0);
        [apply climbs_same_trace, addLog_trace | | lia..].
      eapply (climbs_after 0 0 0 0);
        [apply climbs_same_trace; reflexivity | | lia..].
      eapply (climbs_after 0 0 0 0);
        [apply climbs_emit_other; discriminate | | lia..].
      eapply (climbs_after 0 0 0 0); [exact Cr | | lia..].
      apply climbs_same_trace. reflexivity.
    - destruct Sr as (r & Hr & Hv). exists r. split; assumption. }
  rewrite Eb in E.
  assert (tallied l1 = requestCount config) as HT.
  { rewrite Z2Nat.id in T by lia. rewrite T.
    pose proof (sum_batch_sizes (requestCount config) (concurrency config)
                  (Z.to_nat m) 0 Hc ltac:(lia)) as H.
    rewrite Z2Nat.id in H by lia. rewrite H by (intros _; lia).
    unfold tallied. simpl. lia. }
  destruct (batches_climbs _ _ _ _ _ _ _ _ _ _ Eb S0 ltac:(unfold tallied; simpl; lia))
    as (C1 & _ & _).
  rewrite HT in C1.
  unfold finalize, newDate in E. injection E as _ <-.
  match goal with
  | |- context [setResult ?t ?s3] =>
      destruct (climbs_setResult t s3) as [C2 S2]
  end.
  change (settled _) with (tallied l1) in C2, S2. rewrite HT in C2, S2.
  set (N := requestCount config) in *.
  assert (climbs s s2 0 N) as C01
    by exact (climbs_trans s _ _ 0 0 0 N ltac:(lia) ltac:(lia) ltac:(lia) C0 C1).
  match goal with
  | |- exists xs, shown (trace ?final) = _ /\ _ =>
      assert (climbs s final 0 N) as (xs & Hx & Hsort & Hrange)
  end.
  { eapply (climbs_after 0 N N N);
      [apply climbs_same_trace, addLog_trace | | lia..].
    eapply (climbs_after 0 N N N);
      [apply climbs_same_trace, addLog_trace | | lia..].
    eapply (climbs_after 0 N N N);
      [apply climbs_same_trace, addLog_trace | | lia..].
    eapply (climbs_after 0 N N N); [exact C2 | | lia..].
    eapply (climbs_after 0 N N N);
      [apply climbs_same_trace; reflexivity | exact C01 | lia..]. }
  exists xs. split; [exact Hx|]. split; [exact Hsort|]. split; [exact Hrange|].
  destruct S2 as (r & Hr & Hv). exists r. split; assumption.
Qed.

Lemma shown_counts_never_decrease_witness :
  shown (trace (snd (runTest (sampleEnv afterFirstBatch) (sampleConfig "" "")
                       freshSys)))
  = [0; 3; 3; 6; 9; 10; 10]
  /\ StronglySorted Z.le
       (shown (trace (snd (runTest (sampleEnv afterFirstBatch)
                             (sampleConfig "" "") freshSys)))).
Proof.
  destruct (shown_counts_never_decrease (sampleEnv afterFirstBatch)
              (sampleConfig "" "") freshSys ltac:(discriminate)
              ltac:(simpl; lia) ltac:(simpl; lia)
              ltac:(unfold arrayLimit; simpl; lia)
              ltac:(unfold maxSafeInteger; simpl; lia)
              ltac:(unfold maxSafeInteger; simpl; lia))
    as (xs & E & Hsorted & _).
  split; [vm_compute; reflexivity|]. rewrite E. exact Hsorted.
Defined.

(** ** Stop and the outcome *)

Lemma runExchanges_ext (env1 env2 : Env) (config : TestConfig) :
  (forall b i, exchangeOf env1 b i = exchangeOf env2 b i) ->
  runExchanges env1 config = runExchanges env2 config.
Proof.
  intros H. unfold runExchanges.
  induction (seqZ 0 _) as [|b bs IH]; simpl; [reflexivity|].
  rewrite IH. f_equal. unfold batchExchanges. apply map_ext. intros i. apply H.
Qed.

(** X17. Two runs of the same configuration (a target, a concurrency of at
    least one, a non-negative count, both safe integers, a first batch that
    fits an array) on the same network answers end with the same counts, the
    same recorded times and the same average, and issue the same fetches,
    whatever the user does with the Stop button in either of them and
    whatever the clock says. *)
Theorem stop_presses_do_not_change_the_outcome
    (env1 env2 : Env) (config : TestConfig) (s : Sys) :
  (forall b i, exchangeOf env1 b i = exchangeOf env2 b i) ->
  url config <> EmptyString ->
  1 <= concurrency config ->
  0 <= requestCount config ->
  Z.min (concurrency config) (requestCount config) < arrayLimit ->
  requestCount config <= maxSafeInteger ->
  concurrency config <= maxSafeInteger ->
  exists (l1 l2 : Locals) (s1 s2 : Sys),
    runTest env1 config s = (Finished l1, s1)
    /\ runTest env2 config s = (Finished l2, s2)
    /\ responseTimes l1 = responseTimes l2
    /\ successfulRequests (testResult l1) = successfulRequests (testResult l2)
    /\ failedRequests (testResult l1) = failedRequests (testResult l2)
    /\ averageResponseTime (testResult l1) = averageResponseTime (testResult l2)
    /\ fetched (trace s1) = fetched (trace s2).
Proof.
  intros Hnet Hurl Hc Hn Hlim _ _.
  destruct (runTest_spec env1 config s Hurl Hc Hn Hlim)
    as (l1 & s1 & E1 & [F1 _] & _).
  destruct (runTest_spec env2 config s Hurl Hc Hn Hlim)
    as (l2 & s2 & E2 & [F2 _] & _).
  destruct (finished_run_locals env1 config s s1 l1 E1) as (R1 & S1 & D1 & A1).
  destruct (finished_run_locals env2 config s s2 l2 E2) as (R2 & S2 & D2 & A2).
  rewrite (runExchanges_ext env1 env2 config Hnet) in R1, S1, D1.
  exists l1, l2, s1, s2.
  split; [exact E1|]. split; [exact E2|].
  assert (responseTimes l1 = responseTimes l2) as HR by congruence.
  split; [exact HR|]. split; [congruence|]. split; [congruence|].
  split; [rewrite A1, A2, HR; reflexivity | congruence].
Qed.

Lemma stop_presses_do_not_change_the_outcome_witness :
  exists (l1 l2 : Locals) (s1 s2 : Sys),
    runTest (sampleEnv never) (sampleConfig "" "") freshSys = (Finished l1, s1)
    /\ runTest (sampleEnv afterFirstBatch) (sampleConfig "" "") freshSys
       = (Finished l2, s2)
    /\ responseTimes l1 = responseTimes l2
    /\ successfulRequests (testResult l1) = successfulRequests (testResult l2)
    /\ failedRequests (testResult l1) = failedRequests (testResult l2)
    /\ averageResponseTime (testResult l1) = averageResponseTime (testResult l2)
    /\ fetched (trace s1) = fetched (trace s2).
Proof.
  apply (stop_presses_do_not_change_the_outcome (sampleEnv never)
           (sampleEnv afterFirstBatch) (sampleConfig "" "") freshSys);
    [reflexivity | discriminate | simpl; lia | simpl; lia
    | unfold arrayLimit; simpl; lia
    | unfold maxSafeInteger; simpl; lia | unfold maxSafeInteger; simpl; lia].
Defined.
